(** * cached-certificate-operator: the reconciliation core

    A shallow embedding of the controllers package (the request reconciler
    and its helpers of controllers/cachedcertificate_controller.go, the
    fan-out reconciler of controllers/cachedcertificate_upstreamsecret.go)
    and of the types of api/v1alpha1, followed by the properties of the name
    deriver, the secret materializer, the target-secret upsert and the two
    reconcilers.

    Go strings are byte strings: they are [string] values whose characters
    are the bytes, [len] is [String.length], comparison is byte-wise
    lexicographic ([String.compare]). *)

From Stdlib Require Import ZArith Ascii Lia.
From Stdlib Require String OrdersEx.
From stdpp Require Import base list sorting gmap strings.

(* ===================================================================== *)
(** ** Go library functions used by the package *)
(* ===================================================================== *)

Module strings.

(** [strings.ReplaceAll s old new] where [old] and [new] are one byte each,
    which is how both call sites use it. *)
Fixpoint ReplaceAll (s : string) (old new : ascii) : string :=
  match s with
  | EmptyString => EmptyString
  | String c rest =>
      String (if Ascii.eqb c old then new else c) (ReplaceAll rest old new)
  end.

(** [strings.Join elems sep]. *)
Definition Join (elems : list string) (sep : string) : string :=
  String.concat sep elems.

End strings.

Module strconv.

Definition digit (d : Z) : ascii := ascii_of_N (48 + Z.to_N d).

(** The digit loop of [strconv.FormatUint u 10]: emit [u mod 10] in front of
    what is already written and go on with [u / 10] while [u >= 10]. *)
Fixpoint formatBits (fuel : nat) (u : Z) (acc : string) : string :=
  match fuel with
  | O => acc
  | S fuel' =>
      if (u <? 10)%Z then String (digit u) acc
      else formatBits fuel' (u / 10)%Z (String (digit (u mod 10)%Z) acc)
  end.

(** A 64-bit value has at most 20 decimal digits. *)
Definition FormatUint (u : Z) : string := formatBits 20 u "".

(** Reading a decimal rendering back, to validate [FormatUint]. *)
Definition digitValue (c : ascii) : Z := Z.of_N (N_of_ascii c) - 48.

Fixpoint parseFrom (acc : Z) (s : string) : Z :=
  match s with
  | EmptyString => acc
  | String c rest => parseFrom (10 * acc + digitValue c)%Z rest
  end.

Definition ParseUint (s : string) : Z := parseFrom 0%Z s.

End strconv.

Module fnv.

Definition offset64 : Z := 14695981039346656037.
Definition prime64 : Z := 1099511628211.
Definition two64 : Z := 2 ^ 64.

Definition byteOf (c : ascii) : Z := Z.of_N (N_of_ascii c).

(** [New64a] *)
Definition New64a : Z := offset64.

(** One round of the [Write] method of [sum64a]: xor the byte in, multiply by the prime,
    in uint64 arithmetic. *)
Definition step (hash : Z) (c : ascii) : Z :=
  ((Z.lxor hash (byteOf c)) * prime64 mod two64)%Z.

Fixpoint Write (hash : Z) (data : string) : Z :=
  match data with
  | EmptyString => hash
  | String c rest => Write (step hash c) rest
  end.

Definition Sum64 (hash : Z) : Z := hash.

End fnv.

(** Order of [sort.Strings]: byte-wise lexicographic [<=]. *)
Definition string_le (a b : string) : Prop := String.leb a b = true.

#[global] Instance string_le_dec : RelDecision string_le.
Proof. intros a b. unfold string_le. apply _. Defined.

(* ===================================================================== *)
(** ** Slices and the memory they point into *)
(* ===================================================================== *)

(** A slice of strings is a window (offset, length) on a backing array; the
    memory is the list of backing arrays, an array's identity its index. Two
    slices on the same array alias. *)
Record slice := Slice { s_arr : nat; s_off : nat; s_len : nat }.

Abbreviation mem := (list (list string)).

(** A small state monad over the memory. *)
Definition M (A : Type) : Type := mem -> A * mem.

Definition ret {A} (a : A) : M A := fun m => (a, m).
Definition bind {A B} (c : M A) (k : A -> M B) : M B :=
  fun m => let '(a, m') := c m in k a m'.

Declare Scope mem_scope.
Delimit Scope mem_scope with mem.
Notation "'let*' x ':=' c 'in' k" := (bind c (fun x => k))
  (at level 10, x name, c at level 100, k at level 200) : mem_scope.

Definition arrayOf (m : mem) (s : slice) : list string :=
  default [] (m !! s_arr s).

(** The elements a slice denotes. *)
Definition load (m : mem) (s : slice) : list string :=
  take (s_len s) (drop (s_off s) (arrayOf m s)).

(** Overwrite the cells of [s] from its start with [vs]. *)
Definition store (m : mem) (s : slice) (vs : list string) : mem :=
  alter (fun a => take (s_off s) a ++ vs ++ drop (s_off s + length vs) a)
        (s_arr s) m.

(** A slice Go can hold: its window lies inside its array. *)
Definition valid (m : mem) (s : slice) : Prop :=
  s_off s + s_len s <= length (arrayOf m s).

(** [make([]string, n)] *)
Definition make (n : nat) : M slice :=
  fun m => (Slice (length m) 0 n, m ++ [replicate n ""]).

(** [copy(dst, src)]: copies [min(len(dst), len(src))] elements. *)
Definition copy (dst src : slice) : M nat :=
  fun m =>
    let n := Nat.min (s_len dst) (s_len src) in
    (n, store m dst (take n (load m src))).

Module sort.
(** [sort.Strings x] sorts the window of [x] in place, in increasing order.
    Strings that compare equal are identical, so the sorted window is
    determined by the order alone. *)
Definition Strings (x : slice) : M unit :=
  fun m => (tt, store m x (merge_sort string_le (load m x))).
End sort.

(** [strings.Join] reading its slice argument. *)
Definition JoinSlice (elems : slice) (sep : string) : M string :=
  fun m => (strings.Join (load m elems) sep, m).

(* ===================================================================== *)
(** ** controllers: the name deriver *)
(* ===================================================================== *)

Definition maxSecretNameLength : nat := 253.
Definition hashPrefixLength : nat := 128.

Definition star : ascii := "*"%char.
Definition backslash : ascii := "092"%char.
Definition ex : ascii := "x"%char.

Definition genHash (s : string) : string :=
  let hasher := fnv.New64a in
  let hasher := fnv.Write hasher s in
  strconv.FormatUint (fnv.Sum64 hasher).

Local Open Scope mem_scope.

Definition getUpstreamCertificateName (dnsNames : slice) : M string :=
  if Nat.eqb (s_len dnsNames) 0 then ret ""
  else
    let* names := make (s_len dnsNames) in
    let* _ := copy names dnsNames in
    let* _ := sort.Strings names in
    let* resourceName := JoinSlice names "-" in
    let resourceName := strings.ReplaceAll resourceName star ex in
    let resourceName :=
      if Nat.ltb maxSecretNameLength (String.length resourceName)
      then String.substring 0 (hashPrefixLength - 3) resourceName
           +:+ genHash resourceName
      else resourceName in
    let resourceName := strings.ReplaceAll resourceName backslash ex in
    ret ("cc-" +:+ resourceName).

Local Close Scope mem_scope.

(** A call with the names given as a value, as in
    [getUpstreamCertificateName(cachedCert.Spec.DNSNames...)]: the names sit
    in an array of their own and the slice covers it. *)
Definition upstreamCertificateName (dnsNames : list string) : string :=
  fst (getUpstreamCertificateName (Slice 0 0 (length dnsNames)) [dnsNames]).


(* ===================================================================== *)
(** ** Kubernetes objects, as far as the package reads and writes them *)
(* ===================================================================== *)

(** A Go [map[string]V] value: [None] is the nil map. Reading a nil map
    finds nothing; the code checks for nil before it writes. *)
Abbreviation gomap V := (option (gmap string V)).

(** [v, ok := m[k]] *)
Definition mapLookup {V} (m : gomap V) (k : string) : option V :=
  match m with
  | None => None
  | Some g => g !! k
  end.

(** [m[k]] for a string-valued map: the zero value when the key is absent. *)
Definition mapIndex (m : gomap string) (k : string) : string :=
  default "" (mapLookup m k).

(** [m[k] = v] on a map that is not nil. *)
Definition mapAssign {V} (m : gmap string V) (k : string) (v : V) : gmap string V :=
  <[k := v]> m.

(** A Go [error] value; [IsNotFound] is what [k8serr.IsNotFound] reports. *)
Record error := Error { IsNotFound : bool; Message : string }.

Module errors.
Definition New (msg : string) : error := Error false msg.
End errors.

Record NamespacedName := { nn_Namespace : string; nn_Name : string }.

Record OwnerReference := {
  or_APIVersion : string;
  or_Kind : string;
  or_Name : string;
  or_UID : string;
  or_Controller : option bool;
  or_BlockOwnerDeletion : option bool
}.

Record TypeMeta := { APIVersion : string; Kind : string }.

Record ObjectMeta := {
  Name : string;
  Namespace : string;
  UID : string;
  ResourceVersion : string;
  Labels : gomap string;
  Annotations : gomap string;
  OwnerReferences : list OwnerReference
}.

(** [v1.Secret] *)
Record Secret := {
  secret_ObjectMeta : ObjectMeta;
  secret_Type : string;
  secret_Data : gomap (list Byte.byte)
}.

(** api/v1alpha1/cachedcertificate_types.go *)
Module v1alpha1.

Record IssuerRef := {
  ir_Name : string;
  ir_Kind : string;
  ir_Group : string
}.

Record CachedCertificateSpec := {
  SecretName : string;
  IssuerRef_ : IssuerRef;
  DNSNames : list string
}.

(** [type CachedCertificateState string] *)
Definition CachedCertificateState := string.

Definition CachedCertificateStatePending : CachedCertificateState := "Pending".
Definition CachedCertificateStateSynced : CachedCertificateState := "Synced".
Definition CachedCertificateStateError : CachedCertificateState := "Error".

Record ObjectReference := {
  ref_Name : string;
  ref_Namespace : string
}.

Record CachedCertificateStatus := {
  UpstreamReady : bool;
  UpstreamRef : option ObjectReference;
  State : CachedCertificateState
}.

Record CachedCertificate := {
  cc_TypeMeta : TypeMeta;
  cc_ObjectMeta : ObjectMeta;
  Spec : CachedCertificateSpec;
  Status : CachedCertificateStatus
}.

End v1alpha1.
Import v1alpha1.

(** Field updates, as the assignments of the Go code. *)
Definition setSecretName (cc : CachedCertificate) (n : string) : CachedCertificate :=
  {| cc_TypeMeta := cc_TypeMeta cc; cc_ObjectMeta := cc_ObjectMeta cc;
     Spec := {| SecretName := n; IssuerRef_ := IssuerRef_ (Spec cc);
                DNSNames := DNSNames (Spec cc) |};
     Status := Status cc |}.

Definition setStatus (cc : CachedCertificate) (s : CachedCertificateStatus) : CachedCertificate :=
  {| cc_TypeMeta := cc_TypeMeta cc; cc_ObjectMeta := cc_ObjectMeta cc;
     Spec := Spec cc; Status := s |}.

Definition setState (cc : CachedCertificate) (v : CachedCertificateState) : CachedCertificate :=
  setStatus cc {| UpstreamReady := UpstreamReady (Status cc);
                  UpstreamRef := UpstreamRef (Status cc); State := v |}.

Definition setUpstreamReady (cc : CachedCertificate) (b : bool) : CachedCertificate :=
  setStatus cc {| UpstreamReady := b;
                  UpstreamRef := UpstreamRef (Status cc); State := State (Status cc) |}.

Definition setUpstreamRef (cc : CachedCertificate) (r : option ObjectReference) : CachedCertificate :=
  setStatus cc {| UpstreamReady := UpstreamReady (Status cc);
                  UpstreamRef := r; State := State (Status cc) |}.

(** The upstream cert-manager Certificate is handled as an
    [unstructured.Unstructured]; of its untyped document the package touches
    the identity and three fields of the spec. A field of the document is
    absent, present with another type than the one asked for, or present. *)
Inductive nested (A : Type) : Type :=
| Absent
| WrongType
| Present (a : A).
Arguments Absent {A}.
Arguments WrongType {A}.
Arguments Present {A} a.

Record Unstructured := {
  u_apiVersion : string;
  u_kind : string;
  u_name : string;
  u_namespace : string;
  u_dnsNames : nested (list string);
  u_issuerRef : nested IssuerRef;
  u_secretName : nested string
}.

Module unstructured.

(** [unstructured.NestedStringSlice]: value, found, error. *)
Definition NestedStringSlice (f : nested (list string))
  : list string * bool * option error :=
  match f with
  | Absent => ([], false, None)
  | WrongType => ([], false, Some (errors.New "accessor error: not a []interface{} of strings"))
  | Present v => (v, true, None)
  end.

(** [unstructured.NestedString]: value, found, error. *)
Definition NestedString (f : nested string) : string * bool * option error :=
  match f with
  | Absent => ("", false, None)
  | WrongType => ("", false, Some (errors.New "accessor error: not a string"))
  | Present v => (v, true, None)
  end.

End unstructured.

Module metav1.

(** [metav1.NewControllerRef owner gvk], with the group/version of [gvk]
    rendered back as the apiVersion it was read from. *)
Definition NewControllerRef (owner : CachedCertificate) (gvk : TypeMeta)
  : OwnerReference :=
  {| or_APIVersion := APIVersion gvk;
     or_Kind := Kind gvk;
     or_Name := Name (cc_ObjectMeta owner);
     or_UID := UID (cc_ObjectMeta owner);
     or_Controller := Some true;
     or_BlockOwnerDeletion := Some true |}.

End metav1.

(** [ctrl.Result]; durations in nanoseconds. *)
Record Result := { Requeue : bool; RequeueAfter : Z }.

Module time.
Definition Second : Z := 1000000000.
End time.

Definition noResult : Result := {| Requeue := false; RequeueAfter := 0 |}.

(* ===================================================================== *)
(** ** controllers: keys, validation, materializer, comparator, filters *)
(* ===================================================================== *)

Definition Group : string := "cache.weavelab.xyz".

Definition SyncedLabelKey : string := Group +:+ "/synced-from-cache".
Definition SourceAnnotationKey : string := Group +:+ "/source".
Definition CertificateNameAnnotationKey : string := "cert-manager.io/certificate-name".

Definition hasKey {V} (m : gomap V) (k : string) : bool :=
  if mapLookup m k is Some _ then true else false.

Definition validateSecret (secret : option Secret) : option error :=
  match secret with
  | None => Some (errors.New "secret cannot be nil")
  | Some secret =>
      if negb (hasKey (secret_Data secret) "tls.crt")
      then Some (errors.New "tls.cert not found")
      else if negb (hasKey (secret_Data secret) "tls.key")
      then Some (errors.New "tls.key not found")
      else None
  end.

(** The new secret takes the label and annotation maps of the upstream
    secret; the two entries it adds are assigned into those maps. Here maps
    are values: the maps of the result are the upstream maps with the two
    entries set. *)
Definition genSecretForSync (cachedCert : option CachedCertificate)
    (upstreamCert : option Unstructured) (upstreamSecret : option Secret)
  : option Secret * option error :=
  match cachedCert with
  | None => (None, Some (errors.New "a CachedCertificate is required for secret generation"))
  | Some cachedCert =>
  match upstreamCert with
  | None => (None, Some (errors.New "an upstream Certificate is required for secret generation"))
  | Some _ =>
  match upstreamSecret with
  | None => (None, Some (errors.New "an upstream Secret is required for secret generation"))
  | Some upstreamSecret =>
      let labels := Labels (secret_ObjectMeta upstreamSecret) in
      let annotations := Annotations (secret_ObjectMeta upstreamSecret) in
      let labels := if labels is Some l then l else ∅ in
      let labels := mapAssign labels SyncedLabelKey "true" in
      let annotations := if annotations is Some a then a else ∅ in
      let annotations :=
        mapAssign annotations SourceAnnotationKey
          (Namespace (cc_ObjectMeta cachedCert) +:+ "/" +:+ Name (cc_ObjectMeta cachedCert)) in
      (Some {| secret_ObjectMeta :=
                 {| Name := SecretName (Spec cachedCert);
                    Namespace := Namespace (cc_ObjectMeta cachedCert);
                    UID := "";
                    ResourceVersion := "";
                    Labels := Some labels;
                    Annotations := Some annotations;
                    OwnerReferences :=
                      [metav1.NewControllerRef cachedCert (cc_TypeMeta cachedCert)] |};
               secret_Type := secret_Type upstreamSecret;
               secret_Data := secret_Data upstreamSecret |},
       None)
  end end end.

(** [x[i]] on a slice known to be long enough. *)
Definition at_ (x : list string) (i : nat) : string := default "" (x !! i).

(** The two copies are private to the call, so the comparison is a function
    of the contents of [x] and [y]. *)
Definition slicesEqualAfterSort (x y : list string) : bool :=
  if negb (Nat.eqb (length x) (length y)) then false
  else if Nat.eqb (length x) 1 then String.eqb (at_ x 0) (at_ y 0)
  else
    let xCopy := merge_sort string_le x in
    let yCopy := merge_sort string_le y in
    forallb (fun i => String.eqb (at_ yCopy i) (at_ xCopy i))
            (seq 0 (length xCopy)).

(** Watch events, with the metadata of the objects they carry; [None] is a
    nil object. *)
Inductive event :=
| CreateEvent (object : option ObjectMeta)
| UpdateEvent (objectOld objectNew : option ObjectMeta)
| DeleteEvent (object : option ObjectMeta)
| GenericEvent (object : option ObjectMeta).

Module ResourceVersionChangesOnly.

Definition Create (e : event) : bool := false.
Definition Delete (e : event) : bool := false.
Definition Generic (e : event) : bool := false.

Definition Update (objectOld objectNew : option ObjectMeta) : bool :=
  match objectOld with
  | None => false
  | Some old =>
      match objectNew with
      | None => false
      | Some new => negb (String.eqb (ResourceVersion new) (ResourceVersion old))
      end
  end.

(** The predicate as the watch applies it, by kind of event. *)
Definition apply (e : event) : bool :=
  match e with
  | CreateEvent _ => Create e
  | UpdateEvent old new => Update old new
  | DeleteEvent _ => Delete e
  | GenericEvent _ => Generic e
  end.

End ResourceVersionChangesOnly.

(** The filter given to [predicate.NewPredicateFuncs] in
    [UpstreamSecretReconciler.SetupWithManager]. *)
Definition namespaceAndLabelsPredicate (CacheNamespace : string) (object : ObjectMeta) : bool :=
  String.eqb (Namespace object) CacheNamespace
  && negb (String.eqb (mapIndex (Annotations object) CertificateNameAnnotationKey) "")
  && negb (String.eqb (mapIndex (Labels object) SyncedLabelKey) "true").

(** [predicate.NewPredicateFuncs filter] runs the filter on the object of the
    event, the new one for an update; [predicate.And] is the conjunction. *)
Definition eventObject (e : event) : option ObjectMeta :=
  match e with
  | CreateEvent o | DeleteEvent o | GenericEvent o => o
  | UpdateEvent _ new => new
  end.

Definition upstreamSecretEventFilter (CacheNamespace : string) (e : event) : bool :=
  ResourceVersionChangesOnly.apply e
  && match eventObject e with
     | Some o => namespaceAndLabelsPredicate CacheNamespace o
     | None => false
     end.

(** The index function registered under ["status.upstreamRef.name"]. *)
Definition certNameIndexKey : string := "status.upstreamRef.name".

Definition indexByUpstreamRefName (cert : CachedCertificate) : list string :=
  match UpstreamRef (Status cert) with
  | Some ref => if negb (String.eqb (ref_Name ref) "") then [ref_Name ref] else []
  | None => []
  end.

(* ===================================================================== *)
(** ** The API client and the calls made through it *)
(* ===================================================================== *)

(** [client.Client], as the two reconcilers use it. The world [W] behind the
    interface is whatever the implementation keeps (an API server, a test
    double); every method may change it and may fail. A [Get] returns the
    object or the error. *)
Record Client (W : Type) := {
  GetCachedCertificate : NamespacedName -> W -> (error + CachedCertificate) * W;
  GetCertificate : NamespacedName -> W -> (error + Unstructured) * W;
  GetSecret : NamespacedName -> W -> (error + Secret) * W;
  CreateCertificate : Unstructured -> W -> option error * W;
  CreateSecret : Secret -> W -> option error * W;
  UpdateSecret : Secret -> W -> option error * W;
  (** [Status().Update(ctx, obj)] *)
  StatusUpdate : CachedCertificate -> W -> option error * W;
  (** [Status().Patch(ctx, obj, client.MergeFrom(base))] *)
  StatusPatch : CachedCertificate -> CachedCertificate -> W -> option error * W;
  (** [List(ctx, list, client.MatchingFields{field: value})] *)
  ListCachedCertificates : string -> string -> W -> (error + list CachedCertificate) * W
}.
Arguments GetCachedCertificate {W}.
Arguments GetCertificate {W}.
Arguments GetSecret {W}.
Arguments CreateCertificate {W}.
Arguments CreateSecret {W}.
Arguments UpdateSecret {W}.
Arguments StatusUpdate {W}.
Arguments StatusPatch {W}.
Arguments ListCachedCertificates {W}.

(** The program point of a status update in
    [CachedCertificateReconciler.Reconcile]. *)
Inductive site :=
| AfterUpstreamCreate   (* after createUpstreamCertificate *)
| StaleBinding          (* the dnsNames of the upstream differ *)
| SecretNotFound        (* upstream secret not found: Pending, not ready *)
| SecretFetchFailed     (* upstream secret fetch failed: Error *)
| UpstreamReadyWrite    (* upstream secret found: ready *)
| UpsertFailed          (* target-secret upsert failed: Error *)
| FinalSynced.          (* the end of the pass: Synced *)

(** The calls a reconciler issues, in order, with their arguments. *)
Inductive call :=
| GetCachedCertificateCall (key : NamespacedName)
| GetCertificateCall (key : NamespacedName)
| GetSecretCall (key : NamespacedName)
| CreateCertificateCall (obj : Unstructured)
| CreateSecretCall (obj : Secret)
| UpdateSecretCall (obj : Secret)
| StatusUpdateCall (at_site : site) (obj : CachedCertificate)
| StatusPatchCall (obj base : CachedCertificate)
| ListCachedCertificatesCall (field value : string).

Section reconcilers.

Context {W : Type}.

(** The state a pass runs in: the world behind the client and the calls
    issued so far. *)
Record st := St { world : W; trace : list call }.

Definition R (A : Type) : Type := st -> A * st.

Definition retR {A} (a : A) : R A := fun s => (a, s).
Definition bindR {A B} (c : R A) (k : A -> R B) : R B :=
  fun s => let '(a, s') := c s in k a s'.

(** Issue a call: log it, run the client. *)
Definition invoke {A} (c : call) (f : W -> A * W) : R A :=
  fun s => let '(a, w') := f (world s) in (a, St w' (trace s ++ [c])).

End reconcilers.

Arguments st : clear implicits.
Arguments R : clear implicits.

Declare Scope rec_scope.
Delimit Scope rec_scope with rec.
Notation "'let*' x ':=' c 'in' k" := (bindR c (fun x => k))
  (at level 10, x name, c at level 100, k at level 200) : rec_scope.

(* ===================================================================== *)
(** ** controllers/cachedcertificate_controller.go *)
(* ===================================================================== *)

Record CachedCertificateReconciler (W : Type) := {
  CacheNamespace : string;
  client_ : Client W
}.
Arguments CacheNamespace {W}.
Arguments client_ {W}.

Section request_reconciler.

Context {W : Type} (r : CachedCertificateReconciler W).

Local Open Scope rec_scope.

Definition upsertTargetSecret (secret : Secret) : R W (option error) :=
  let key := {| nn_Namespace := Namespace (secret_ObjectMeta secret);
                nn_Name := Name (secret_ObjectMeta secret) |} in
  let* got := invoke (GetSecretCall key) (GetSecret (client_ r) key) in
  match got with
  | inl err =>
      if IsNotFound err
      then invoke (CreateSecretCall secret) (CreateSecret (client_ r) secret)
      else retR (Some err)
  | inr existingSecret =>
      if negb (hasKey (Labels (secret_ObjectMeta existingSecret)) SyncedLabelKey)
      then retR (Some (errors.New "refusing to update a secret not created by the controller"))
      else invoke (UpdateSecretCall secret) (UpdateSecret (client_ r) secret)
  end.

Definition getUpstreamCertificate (cachedCert : CachedCertificate)
  : R W (error + Unstructured) :=
  match UpstreamRef (Status cachedCert) with
  | None => retR (inl (errors.New ".Status.UpstreamRef is required"))
  | Some ref =>
      let key := {| nn_Namespace := ref_Namespace ref; nn_Name := ref_Name ref |} in
      invoke (GetCertificateCall key) (GetCertificate (client_ r) key)
  end.

Definition createUpstreamCertificate (cachedCert : CachedCertificate)
  : R W (option error) :=
  match UpstreamRef (Status cachedCert) with
  | None => retR (Some (errors.New ".Status.UpstreamRef is required"))
  | Some ref =>
      let upstreamCert :=
        {| u_apiVersion := "cert-manager.io/v1";
           u_kind := "Certificate";
           u_name := ref_Name ref;
           u_namespace := ref_Namespace ref;
           u_dnsNames := Present (DNSNames (Spec cachedCert));
           u_issuerRef := Present (IssuerRef_ (Spec cachedCert));
           u_secretName := Present (ref_Name ref) |} in
      invoke (CreateCertificateCall upstreamCert)
             (CreateCertificate (client_ r) upstreamCert)
  end.

Definition getUpstreamSecret (upstreamCert : Unstructured) : R W (error + Secret) :=
  let '(secretName, found, err) := unstructured.NestedString (u_secretName upstreamCert) in
  match err with
  | Some err => retR (inl err)
  | None =>
      if negb found
      then retR (inl (errors.New "unable to find secretName in upstream Certificate"))
      else if String.eqb secretName ""
      then retR (inl (errors.New "secretName not set in upstream Certificate"))
      else
        let key := {| nn_Namespace := u_namespace upstreamCert; nn_Name := secretName |} in
        invoke (GetSecretCall key) (GetSecret (client_ r) key)
  end.

Definition statusUpdate (at_site : site) (cachedCert : CachedCertificate)
  : R W (option error) :=
  invoke (StatusUpdateCall at_site cachedCert) (StatusUpdate (client_ r) cachedCert).

(** The end of [Reconcile], from "get and validate upstream secret" on: what
    a pass does once the upstream secret is found and the readiness is
    recorded. Both ways into it (readiness just written, or already set)
    continue here. *)
Definition Reconcile_sync (cachedCert : CachedCertificate)
    (upstreamCert : Unstructured) (upstreamSecret : Secret)
  : R W (Result * option error) :=
  (* get and validate upstream secret *)
  let '(secret, err) :=
    genSecretForSync (Some cachedCert) (Some upstreamCert) (Some upstreamSecret) in
  match err with
  | Some err => retR ({| Requeue := false; RequeueAfter := time.Second * 3 |}, Some err)
  | None =>
  match validateSecret secret with
  | Some err => retR ({| Requeue := false; RequeueAfter := time.Second * 3 |}, Some err)
  | None =>
  match secret with
  | None => retR (noResult, None) (* not reached: a nil secret is not valid *)
  | Some secret =>
  let* err := upsertTargetSecret secret in
  match err with
  | Some _ =>
      let cachedCert := setState cachedCert CachedCertificateStateError in
      (* err is assigned the result of the status update *)
      let* err := statusUpdate UpsertFailed cachedCert in
      match err with
      | Some err => retR (noResult, Some err)
      | None => retR (noResult, err)
      end
  | None =>
      (* set status on cachedcertificate resource *)
      let cachedCert := setState cachedCert CachedCertificateStateSynced in
      let* err := statusUpdate FinalSynced cachedCert in
      match err with
      | Some err => retR (noResult, Some err)
      | None => retR (noResult, None)
      end
  end end end end.

Definition Reconcile (req : NamespacedName) : R W (Result * option error) :=
  let* got := invoke (GetCachedCertificateCall req)
                     (GetCachedCertificate (client_ r) req) in
  match got with
  | inl err =>
      if IsNotFound err then retR (noResult, None) else retR (noResult, Some err)
  | inr cachedCert =>
  (* default secretName to match the resource name *)
  let cachedCert :=
    if String.eqb (SecretName (Spec cachedCert)) ""
    then setSecretName cachedCert (Name (cc_ObjectMeta cachedCert))
    else cachedCert in
  (* speculatively set the upstream if it's not already set *)
  let cachedCert :=
    if UpstreamRef (Status cachedCert) is None
    then setUpstreamRef cachedCert
           (Some {| ref_Name := upstreamCertificateName (DNSNames (Spec cachedCert));
                    ref_Namespace := CacheNamespace r |})
    else cachedCert in
  (* try to get the upstream cert *)
  let* gotCert := getUpstreamCertificate cachedCert in
  match gotCert with
  | inl err =>
      if IsNotFound err then
        let* err := createUpstreamCertificate cachedCert in
        match err with
        | Some err => retR (noResult, Some err)
        | None =>
            let* err := statusUpdate AfterUpstreamCreate cachedCert in
            match err with
            | Some err => retR (noResult, Some err)
            | None => retR ({| Requeue := true; RequeueAfter := 0 |}, None)
            end
        end
      else retR (noResult, Some err)
  | inr upstreamCert =>
  let '(upstreamDNSNames, found, err) :=
    unstructured.NestedStringSlice (u_dnsNames upstreamCert) in
  match err with
  | Some err => retR (noResult, Some err)
  | None =>
  if negb found then retR (noResult, err)
  else
  if negb (slicesEqualAfterSort upstreamDNSNames (DNSNames (Spec cachedCert))) then
    (* set and go back through the system to issue / re-use as needed *)
    let cachedCert := setState cachedCert CachedCertificateStatePending in
    let cachedCert := setUpstreamReady cachedCert false in
    let cachedCert := setUpstreamRef cachedCert None in
    let* err := statusUpdate StaleBinding cachedCert in
    match err with
    | Some err => retR ({| Requeue := false; RequeueAfter := time.Second * 2 |}, Some err)
    | None => retR (noResult, None)
    end
  else
  (* try to get the secret used from which we will sync *)
  let* gotSecret := getUpstreamSecret upstreamCert in
  match gotSecret with
  | inl err =>
      if IsNotFound err then
        let requeue := {| Requeue := true; RequeueAfter := time.Second * 2 |} in
        (* update status if required *)
        if negb (String.eqb (State (Status cachedCert)) CachedCertificateStatePending)
           || UpstreamReady (Status cachedCert)
        then
          let cachedCert := setState cachedCert CachedCertificateStatePending in
          let cachedCert := setUpstreamReady cachedCert false in
          let* err := statusUpdate SecretNotFound cachedCert in
          match err with
          | Some err => retR (noResult, Some err)
          | None => retR (requeue, None)
          end
        else retR (requeue, None)
      else
        let cachedCert := setState cachedCert CachedCertificateStateError in
        let cachedCert := setUpstreamReady cachedCert false in
        let* statusErr := statusUpdate SecretFetchFailed cachedCert in
        match statusErr with
        | Some statusErr => retR (noResult, Some statusErr)
        | None => retR (noResult, Some err)
        end
  | inr upstreamSecret =>
  (* secret found, upstream is "ready"; update status if required *)
  if negb (UpstreamReady (Status cachedCert)) then
    let cachedCert := setUpstreamReady cachedCert true in
    let* err := statusUpdate UpstreamReadyWrite cachedCert in
    match err with
    | Some err => retR (noResult, Some err)
    | None => Reconcile_sync cachedCert upstreamCert upstreamSecret
    end
  else Reconcile_sync cachedCert upstreamCert upstreamSecret
  end end end end.

End request_reconciler.

(* ===================================================================== *)
(** ** controllers/cachedcertificate_upstreamsecret.go *)
(* ===================================================================== *)

Record UpstreamSecretReconciler (W : Type) := {
  us_CacheNamespace : string;
  CertNameIndexKey : string;
  us_client : Client W
}.
Arguments us_CacheNamespace {W}.
Arguments CertNameIndexKey {W}.
Arguments us_client {W}.

Section upstream_secret_reconciler.

Context {W : Type} (r : UpstreamSecretReconciler W).

Local Open Scope rec_scope.

(** The loop over [certList.Items]. *)
Fixpoint patchItems (items : list CachedCertificate) : R W (Result * option error) :=
  match items with
  | [] => retR (noResult, None)
  | cert :: rest =>
      let patchBase := cert (* cert.DeepCopy() *) in
      let cert := setState cert CachedCertificateStatePending in
      let* err := invoke (StatusPatchCall cert patchBase)
                         (StatusPatch (us_client r) cert patchBase) in
      match err with
      | Some err => retR ({| Requeue := false; RequeueAfter := time.Second * 3 |}, Some err)
      | None => patchItems rest
      end
  end.

Definition ReconcileUpstreamSecret (req : NamespacedName) : R W (Result * option error) :=
  let* got := invoke (GetSecretCall req) (GetSecret (us_client r) req) in
  match got with
  | inl err =>
      if IsNotFound err then retR (noResult, None) else retR (noResult, Some err)
  | inr secret =>
      let certName := mapIndex (Annotations (secret_ObjectMeta secret))
                               CertificateNameAnnotationKey in
      if String.eqb certName "" then retR (noResult, None)
      else
        (* all certs using the updated secret, through the index *)
        let* got := invoke (ListCachedCertificatesCall (CertNameIndexKey r) certName)
                           (ListCachedCertificates (us_client r) (CertNameIndexKey r) certName) in
        match got with
        | inl err => retR ({| Requeue := true; RequeueAfter := 0 |}, Some err)
        | inr items => patchItems items
        end
  end.

End upstream_secret_reconciler.

(* ===================================================================== *)
(** ** An in-memory cluster behind the client *)
(* ===================================================================== *)

(** A client over an in-memory object store, in the manner of the fake
    client the controller tests of such operators run against: objects are
    kept by namespace and name, a [Get] of a missing object is a NotFound
    error, a create of an existing one and an update of a missing one fail,
    a status update replaces the status of the stored object and nothing
    else, a status merge patch writes the status fields that differ from the
    base. It serves to run the reconcilers on concrete clusters. *)
Record cluster := {
  cachedCertificates : gmap (string * string) CachedCertificate;
  certificates : gmap (string * string) Unstructured;
  secrets : gmap (string * string) Secret
}.

Definition keyOf (k : NamespacedName) : string * string :=
  (nn_Namespace k, nn_Name k).

Definition notFound : error := Error true "not found".
Definition alreadyExists : error := Error false "already exists".

Definition withCachedCertificates (cl : cluster) m : cluster :=
  {| cachedCertificates := m; certificates := certificates cl; secrets := secrets cl |}.
Definition withCertificates (cl : cluster) m : cluster :=
  {| cachedCertificates := cachedCertificates cl; certificates := m; secrets := secrets cl |}.
Definition withSecrets (cl : cluster) m : cluster :=
  {| cachedCertificates := cachedCertificates cl; certificates := certificates cl; secrets := m |}.

Definition ccKey (cc : CachedCertificate) : string * string :=
  (Namespace (cc_ObjectMeta cc), Name (cc_ObjectMeta cc)).
Definition secretKey (s : Secret) : string * string :=
  (Namespace (secret_ObjectMeta s), Name (secret_ObjectMeta s)).

Definition eqRef (a b : option ObjectReference) : bool :=
  match a, b with
  | None, None => true
  | Some x, Some y =>
      String.eqb (ref_Name x) (ref_Name y) && String.eqb (ref_Namespace x) (ref_Namespace y)
  | _, _ => false
  end.

(** The status a merge patch from [base] to [obj] leaves on [stored]. *)
Definition mergeStatus (stored obj base : CachedCertificateStatus) : CachedCertificateStatus :=
  {| UpstreamReady :=
       if Bool.eqb (UpstreamReady obj) (UpstreamReady base)
       then UpstreamReady stored else UpstreamReady obj;
     UpstreamRef :=
       if eqRef (UpstreamRef obj) (UpstreamRef base)
       then UpstreamRef stored else UpstreamRef obj;
     State :=
       if String.eqb (State obj) (State base) then State stored else State obj |}.

Definition getFrom {A} (m : gmap (string * string) A) (k : NamespacedName) (cl : cluster)
  : (error + A) * cluster :=
  match m !! keyOf k with
  | Some o => (inr o, cl)
  | None => (inl notFound, cl)
  end.

Definition fakeClient : Client cluster := {|
  GetCachedCertificate k cl := getFrom (cachedCertificates cl) k cl;
  GetCertificate k cl := getFrom (certificates cl) k cl;
  GetSecret k cl := getFrom (secrets cl) k cl;
  CreateCertificate u cl :=
    match certificates cl !! (u_namespace u, u_name u) with
    | Some _ => (Some alreadyExists, cl)
    | None => (None, withCertificates cl (<[(u_namespace u, u_name u) := u]> (certificates cl)))
    end;
  CreateSecret s cl :=
    match secrets cl !! secretKey s with
    | Some _ => (Some alreadyExists, cl)
    | None => (None, withSecrets cl (<[secretKey s := s]> (secrets cl)))
    end;
  UpdateSecret s cl :=
    match secrets cl !! secretKey s with
    | Some _ => (None, withSecrets cl (<[secretKey s := s]> (secrets cl)))
    | None => (Some notFound, cl)
    end;
  StatusUpdate cc cl :=
    match cachedCertificates cl !! ccKey cc with
    | Some stored =>
        (None, withCachedCertificates cl
                 (<[ccKey cc := setStatus stored (Status cc)]> (cachedCertificates cl)))
    | None => (Some notFound, cl)
    end;
  StatusPatch obj base cl :=
    match cachedCertificates cl !! ccKey obj with
    | Some stored =>
        (None, withCachedCertificates cl
                 (<[ccKey obj := setStatus stored
                                   (mergeStatus (Status stored) (Status obj) (Status base))]>
                    (cachedCertificates cl)))
    | None => (Some notFound, cl)
    end;
  ListCachedCertificates field value cl :=
    if String.eqb field certNameIndexKey
    then (inr (filter (fun cc => value ∈ indexByUpstreamRefName cc)
                      (map snd (map_to_list (cachedCertificates cl)))), cl)
    else (inl (errors.New "index does not exist"), cl)
|}.

Definition requestReconciler (cacheNamespace : string) : CachedCertificateReconciler cluster :=
  {| CacheNamespace := cacheNamespace; client_ := fakeClient |}.

Definition fanOutReconciler (cacheNamespace : string) : UpstreamSecretReconciler cluster :=
  {| us_CacheNamespace := cacheNamespace;
     CertNameIndexKey := certNameIndexKey;
     us_client := fakeClient |}.

(** One pass on a cluster, from an empty trace. *)
Definition runRequest (cacheNamespace : string) (req : NamespacedName) (cl : cluster)
  : (Result * option error) * st cluster :=
  Reconcile (requestReconciler cacheNamespace) req (St cl []).

Definition runFanOut (cacheNamespace : string) (req : NamespacedName) (cl : cluster)
  : (Result * option error) * st cluster :=
  ReconcileUpstreamSecret (fanOutReconciler cacheNamespace) req (St cl []).

(** Objects to build clusters from. *)
Definition meta (ns name : string) (labels annotations : gomap string) : ObjectMeta :=
  {| Name := name; Namespace := ns; UID := ""; ResourceVersion := "";
     Labels := labels; Annotations := annotations; OwnerReferences := [] |}.

Definition request (ns name : string) (dnsNames : list string)
    (status : CachedCertificateStatus) : CachedCertificate :=
  {| cc_TypeMeta := {| APIVersion := "cache.weavelab.xyz/v1alpha1"; Kind := "CachedCertificate" |};
     cc_ObjectMeta := meta ns name None None;
     Spec := {| SecretName := "";
                IssuerRef_ := {| ir_Name := "my-issuer"; ir_Kind := "Issuer"; ir_Group := "" |};
                DNSNames := dnsNames |};
     Status := status |}.

Definition tlsData : gomap (list Byte.byte) :=
  Some (<["tls.crt" := []]> (<["tls.key" := []]> ∅)).

Definition clusterOf (ccs : list CachedCertificate) (certs : list Unstructured)
    (ss : list Secret) : cluster :=
  {| cachedCertificates := list_to_map (map (fun cc => (ccKey cc, cc)) ccs);
     certificates := list_to_map (map (fun u => ((u_namespace u, u_name u), u)) certs);
     secrets := list_to_map (map (fun s => (secretKey s, s)) ss) |}.

(* ===================================================================== *)
(** ** Auxiliary definitions for the statements *)
(* ===================================================================== *)

(** The value [getUpstreamCertificateName] computes from the sorted copy. *)
Definition nameOfSorted (names : list string) : string :=
  let joined := strings.ReplaceAll (strings.Join names "-") star ex in
  "cc-" +:+ strings.ReplaceAll
    (if Nat.ltb maxSecretNameLength (String.length joined)
     then String.substring 0 (hashPrefixLength - 3) joined +:+ genHash joined
     else joined) backslash ex.

(** [hasByte c s]: the byte [c] occurs in [s]. *)
Fixpoint hasByte (c : ascii) (s : string) : bool :=
  match s with
  | EmptyString => false
  | String d rest => Ascii.eqb d c || hasByte c rest
  end.

(** [strings.Repeat] of a one-byte string. *)
Fixpoint repeatByte (c : ascii) (n : nat) : string :=
  match n with
  | O => EmptyString
  | S k => String c (repeatByte c k)
  end.

(** The length of a join: the lengths of the elements and of the
    separators between them. *)
Fixpoint joinedLength (sep : nat) (l : list string) : nat :=
  match l with
  | [] => 0
  | [a] => String.length a
  | a :: rest => String.length a + sep + joinedLength sep rest
  end.

(** The name deriver in the words of the specification: copy and sort the
    names, join them with [-], replace every wildcard and every backslash
    with [x]; if the joined string is longer than 253 characters, keep its
    first 125 characters and append the decimal hash of the full joined
    string; prefix [cc-]. *)
Definition referenceName (dnsNames : list string) : string :=
  let names := merge_sort string_le dnsNames in
  let joined := strings.Join names "-" in
  let joined := strings.ReplaceAll joined star ex in
  let joined := strings.ReplaceAll joined backslash ex in
  let body :=
    if Nat.ltb 253 (String.length joined)
    then String.substring 0 125 joined +:+ genHash joined
    else joined in
  "cc-" +:+ body.

(** The same, with the hash taken of the joined string as it stands before
    the backslashes are replaced (wildcards already are). *)
Definition referenceNameHashedEarly (dnsNames : list string) : string :=
  let names := merge_sort string_le dnsNames in
  let joined := strings.Join names "-" in
  let starred := strings.ReplaceAll joined star ex in
  let clean := strings.ReplaceAll starred backslash ex in
  let body :=
    if Nat.ltb 253 (String.length clean)
    then String.substring 0 125 clean +:+ genHash starred
    else clean in
  "cc-" +:+ body.

(** Two DNS-name sequences hold the same names, as sets. *)
Definition sameNameSet (x y : list string) : Prop :=
  forall n : string, n ∈ x <-> n ∈ y.

(** The Request as [Reconcile] holds it after its first two steps: the
    secret name defaulted to the Request's name, and the upstream reference
    speculatively set when none is recorded. *)
Definition prepared {W} (r : CachedCertificateReconciler W)
    (cachedCert : CachedCertificate) : CachedCertificate :=
  let cachedCert :=
    if String.eqb (SecretName (Spec cachedCert)) ""
    then setSecretName cachedCert (Name (cc_ObjectMeta cachedCert))
    else cachedCert in
  if UpstreamRef (Status cachedCert) is None
  then setUpstreamRef cachedCert
         (Some {| ref_Name := upstreamCertificateName (DNSNames (Spec cachedCert));
                  ref_Namespace := CacheNamespace r |})
  else cachedCert.

(** The key of the upstream Certificate a Request refers to. *)
Definition upstreamKey (cachedCert : CachedCertificate) : NamespacedName :=
  match UpstreamRef (Status cachedCert) with
  | Some ref => {| nn_Namespace := ref_Namespace ref; nn_Name := ref_Name ref |}
  | None => {| nn_Namespace := ""; nn_Name := "" |}
  end.

(** The three states of the API. *)
Definition enumeratedState (v : CachedCertificateState) : Prop :=
  v = CachedCertificateStatePending
  \/ v = CachedCertificateStateSynced
  \/ v = CachedCertificateStateError.

(** The status update a pass may issue at each program point, for the
    Request [cc] as prepared at the start of the pass. *)
Definition writtenAt (at_site : site) (cc obj : CachedCertificate) : Prop :=
  match at_site with
  | AfterUpstreamCreate => obj = cc
  | StaleBinding =>
      obj = setUpstreamRef
              (setUpstreamReady (setState cc CachedCertificateStatePending) false) None
  | SecretNotFound =>
      obj = setUpstreamReady (setState cc CachedCertificateStatePending) false
      /\ (State (Status cc) <> CachedCertificateStatePending
          \/ UpstreamReady (Status cc) = true)
  | SecretFetchFailed =>
      obj = setUpstreamReady (setState cc CachedCertificateStateError) false
  | UpstreamReadyWrite =>
      obj = setUpstreamReady cc true /\ UpstreamReady (Status cc) = false
  | UpsertFailed =>
      obj = setState cc CachedCertificateStateError
      \/ obj = setState (setUpstreamReady cc true) CachedCertificateStateError
  | FinalSynced =>
      (obj = setState cc CachedCertificateStateSynced
       /\ UpstreamReady (Status cc) = true)
      \/ obj = setState (setUpstreamReady cc true) CachedCertificateStateSynced
  end.

(** The call the fan-out issues for a dependent. *)
Definition patchCall (cert : CachedCertificate) : call :=
  StatusPatchCall (setState cert CachedCertificateStatePending) cert.

(** Where the upsert looks for the target secret, and the error it refuses a
    foreign secret with. *)
Definition targetKey (secret : Secret) : NamespacedName :=
  {| nn_Namespace := Namespace (secret_ObjectMeta secret);
     nn_Name := Name (secret_ObjectMeta secret) |}.

Definition refusal : error :=
  errors.New "refusing to update a secret not created by the controller".


(* ===================================================================== *)
(** ** Concrete inputs *)
(* ===================================================================== *)

(** The slices of the unit tests of the name deriver. *)
Definition unsortedMem : mem := [["b"; "a"; "c"]].
Definition sortedMem : mem := [["a"; "b"; "c"]].
Definition threeNames : slice := Slice 0 0 3.

Definition twoNamesMem : mem := [["test.example.com"; "secondary.example.com"]].
Definition twoNames : slice := Slice 0 0 2.

(** The long input of [Test_getUpstreamName]. *)
Definition longInput : list string :=
  [ "a.example.com";
    repeatByte "b" 63 +:+ ".example.com";
    repeatByte "c" 63 +:+ ".example.com";
    repeatByte "d" 63 +:+ ".example.com";
    repeatByte "f" 63 +:+ ".example.com" ].

(** A name of 254 bytes: a backslash followed by 253 letters. *)
Definition longBackslashName : string := String backslash (repeatByte "a" 253).

(** A cluster in the manner of the controller tests: everything lives in
    the namespace "testing", which is also the cache namespace. *)
Definition testing : string := "testing".

Definition statusOf (ready : bool) (ref : option string) (state : string)
  : CachedCertificateStatus :=
  {| UpstreamReady := ready;
     UpstreamRef :=
       match ref with
       | Some n => Some {| ref_Name := n; ref_Namespace := testing |}
       | None => None
       end;
     State := state |}.

Definition certificate (name : string) (dnsNames : list string) : Unstructured :=
  {| u_apiVersion := "cert-manager.io/v1"; u_kind := "Certificate";
     u_name := name; u_namespace := testing;
     u_dnsNames := Present dnsNames;
     u_issuerRef :=
       Present {| ir_Name := "my-issuer"; ir_Kind := "Issuer"; ir_Group := "" |};
     u_secretName := Present name |}.

Definition upstreamSecretOf (name : string) : Secret :=
  {| secret_ObjectMeta :=
       meta testing name None (Some {[ CertificateNameAnnotationKey := name ]});
     secret_Type := "kubernetes.io/tls";
     secret_Data := tlsData |}.

Definition targetSecretOf (name : string) (labels : gomap string) : Secret :=
  {| secret_ObjectMeta := meta testing name labels None;
     secret_Type := "Opaque";
     secret_Data := tlsData |}.

Definition keyIn (name : string) : NamespacedName :=
  {| nn_Namespace := testing; nn_Name := name |}.

(** A new Request: no status yet. *)
Definition freshRequest : CachedCertificate :=
  request testing "new-cachedcertificate" ["example.com"] (statusOf false None "").
Definition freshCluster : cluster := clusterOf [freshRequest] [] [].

(** A Request bound to an upstream Certificate issued for other names. *)
Definition staleRequest : CachedCertificate :=
  request testing "cachedcertificate-dnsnameschange" ["dnsset-2.example.com"]
          (statusOf true (Some "cc-dnsset-1.example.com") "Synced").
Definition staleCertificate : Unstructured :=
  certificate "cc-dnsset-1.example.com" ["dnsset-1.example.com"].
Definition staleCluster : cluster :=
  clusterOf [staleRequest] [staleCertificate]
            [upstreamSecretOf "cc-dnsset-1.example.com"].

(** A synced Request whose target secret was replaced by a foreign one. *)
Definition conflictRequest : CachedCertificate :=
  request testing "new-cachedcertificate-conflict" ["conflict.example.com"]
          (statusOf true (Some "cc-conflict.example.com") "Synced").
Definition conflictCertificate : Unstructured :=
  certificate "cc-conflict.example.com" ["conflict.example.com"].
Definition foreignSecret : Secret :=
  targetSecretOf "new-cachedcertificate-conflict" (Some ∅).
Definition conflictCluster : cluster :=
  clusterOf [conflictRequest] [conflictCertificate]
            [upstreamSecretOf "cc-conflict.example.com"; foreignSecret].
Definition conflictPrepared : CachedCertificate :=
  prepared (requestReconciler testing) conflictRequest.
Definition conflictSecret : Secret :=
  default foreignSecret
    (fst (genSecretForSync (Some conflictPrepared) (Some conflictCertificate)
            (Some (upstreamSecretOf "cc-conflict.example.com")))).

(** The same Request, its target secret carrying the marker label with the
    value "false". *)
Definition falseMarkedSecret : Secret :=
  targetSecretOf "new-cachedcertificate-conflict"
                 (Some {[ SyncedLabelKey := "false" ]}).
Definition falseMarkedCluster : cluster :=
  clusterOf [conflictRequest] [conflictCertificate]
            [upstreamSecretOf "cc-conflict.example.com"; falseMarkedSecret].

(** A Request that is synced, with its own target secret in place. *)
Definition syncedRequest : CachedCertificate :=
  request testing "synced" ["example.com"]
          (statusOf true (Some "cc-example.com") "Synced").
Definition syncedCluster : cluster :=
  clusterOf [syncedRequest] [certificate "cc-example.com" ["example.com"]]
            [upstreamSecretOf "cc-example.com";
             targetSecretOf "synced" (Some {[ SyncedLabelKey := "true" ]})].

(** A synced Request whose upstream secret is gone. *)
Definition waitingCluster : cluster :=
  clusterOf [syncedRequest] [certificate "cc-example.com" ["example.com"]] [].

(** A dependent that is already Pending, and the upstream secret it
    depends on. *)
Definition pendingRequest : CachedCertificate :=
  request testing "pending" ["example.com"]
          (statusOf true (Some "cc-example.com") "Pending").
Definition pendingCluster : cluster :=
  clusterOf [pendingRequest] [certificate "cc-example.com" ["example.com"]]
            [upstreamSecretOf "cc-example.com"].

(** The status updates the passes on these clusters issue. *)
Definition freshWritten : CachedCertificate :=
  prepared (requestReconciler testing) freshRequest.

Definition staleWritten : CachedCertificate :=
  setUpstreamRef
    (setUpstreamReady
       (setState (prepared (requestReconciler testing) staleRequest)
                 CachedCertificateStatePending) false) None.

Definition syncedWritten : CachedCertificate :=
  setState (prepared (requestReconciler testing) syncedRequest)
           CachedCertificateStateSynced.

Definition waitingWritten : CachedCertificate :=
  setUpstreamReady
    (setState (prepared (requestReconciler testing) syncedRequest)
              CachedCertificateStatePending) false.

(** A secret of the cache namespace that names its Certificate and carries
    the marker label with the value "false". *)
Definition falseMarkedUpstream : ObjectMeta :=
  meta testing "cc-example.com"
       (Some {[ SyncedLabelKey := "false" ]})
       (Some {[ CertificateNameAnnotationKey := "cc-example.com" ]}).

(* ===================================================================== *)
(** ** Further definitions for the statements *)
(* ===================================================================== *)

(** A decimal digit, and a string of decimal digits. *)
Definition isDigit (c : ascii) : bool :=
  (48 <=? N_of_ascii c)%N && (N_of_ascii c <=? 57)%N.

Fixpoint allDigits (s : string) : bool :=
  match s with
  | EmptyString => true
  | String c rest => isDigit c && allDigits rest
  end.

(** The joined string the deriver works on: the sorted names joined with
    [-], wildcards replaced. *)
Definition joinedNames (dnsNames : list string) : string :=
  strings.ReplaceAll (strings.Join (merge_sort string_le dnsNames) "-") star ex.

(** The name a Request's target secret goes by: its [secretName], or its own
    name when that is not set. *)
Definition targetName (cachedCert : CachedCertificate) : string :=
  if String.eqb (SecretName (Spec cachedCert)) ""
  then Name (cc_ObjectMeta cachedCert)
  else SecretName (Spec cachedCert).

(** The reference the deriver gives a Request. *)
Definition derivedRef {W} (r : CachedCertificateReconciler W)
    (cachedCert : CachedCertificate) : ObjectReference :=
  {| ref_Name := upstreamCertificateName (DNSNames (Spec cachedCert));
     ref_Namespace := CacheNamespace r |}.

(** The Certificate [createUpstreamCertificate] submits for a Request bound
    to [ref]. *)
Definition upstreamCertificateFor (cachedCert : CachedCertificate)
    (ref : ObjectReference) : Unstructured :=
  {| u_apiVersion := "cert-manager.io/v1";
     u_kind := "Certificate";
     u_name := ref_Name ref;
     u_namespace := ref_Namespace ref;
     u_dnsNames := Present (DNSNames (Spec cachedCert));
     u_issuerRef := Present (IssuerRef_ (Spec cachedCert));
     u_secretName := Present (ref_Name ref) |}.

(** The reference a pass works with: the recorded one, or the derived one
    when none is recorded. *)
Definition boundRef {W} (r : CachedCertificateReconciler W)
    (cachedCert : CachedCertificate) : ObjectReference :=
  default (derivedRef r cachedCert) (UpstreamRef (Status cachedCert)).

(** The two reads every pass that finds its Request and its upstream
    Certificate starts with. *)
Definition firstReads {W} (r : CachedCertificateReconciler W)
    (req : NamespacedName) (cachedCert : CachedCertificate) : list call :=
  [GetCachedCertificateCall req;
   GetCertificateCall (upstreamKey (prepared r cachedCert))].

(** What [Reconcile] does with the outcome of [getUpstreamSecret], as a
    function of that outcome. *)
Definition afterSecretFetch {W} (r : CachedCertificateReconciler W)
    (cachedCert : CachedCertificate) (upstreamCert : Unstructured)
    (gotSecret : error + Secret) : R W (Result * option error) :=
  match gotSecret with
  | inl err =>
      if IsNotFound err then
        let requeue := {| Requeue := true; RequeueAfter := time.Second * 2 |} in
        if negb (String.eqb (State (Status cachedCert)) CachedCertificateStatePending)
           || UpstreamReady (Status cachedCert)
        then
          bindR (statusUpdate r SecretNotFound
                   (setUpstreamReady
                      (setState cachedCert CachedCertificateStatePending) false))
            (fun err =>
               match err with
               | Some err => retR (noResult, Some err)
               | None => retR (requeue, None)
               end)
        else retR (requeue, None)
      else
        bindR (statusUpdate r SecretFetchFailed
                 (setUpstreamReady
                    (setState cachedCert CachedCertificateStateError) false))
          (fun statusErr =>
             match statusErr with
             | Some statusErr => retR (noResult, Some statusErr)
             | None => retR (noResult, Some err)
             end)
  | inr upstreamSecret =>
      if negb (UpstreamReady (Status cachedCert)) then
        bindR (statusUpdate r UpstreamReadyWrite (setUpstreamReady cachedCert true))
          (fun err =>
             match err with
             | Some err => retR (noResult, Some err)
             | None => Reconcile_sync r (setUpstreamReady cachedCert true)
                         upstreamCert upstreamSecret
             end)
      else Reconcile_sync r cachedCert upstreamCert upstreamSecret
  end.

(** Further concrete inputs. An upstream Certificate whose spec has no
    dnsNames, and one that names no secret. *)
Definition bareCertificate : Unstructured :=
  {| u_apiVersion := "cert-manager.io/v1"; u_kind := "Certificate";
     u_name := "cc-example.com"; u_namespace := testing;
     u_dnsNames := Absent;
     u_issuerRef :=
       Present {| ir_Name := "my-issuer"; ir_Kind := "Issuer"; ir_Group := "" |};
     u_secretName := Present "cc-example.com" |}.
Definition bareCluster : cluster := clusterOf [syncedRequest] [bareCertificate] [].

Definition unnamedCertificate : Unstructured :=
  {| u_apiVersion := "cert-manager.io/v1"; u_kind := "Certificate";
     u_name := "cc-example.com"; u_namespace := testing;
     u_dnsNames := Present ["example.com"];
     u_issuerRef :=
       Present {| ir_Name := "my-issuer"; ir_Kind := "Issuer"; ir_Group := "" |};
     u_secretName := Absent |}.
Definition unnamedCluster : cluster := clusterOf [syncedRequest] [unnamedCertificate] [].

Definition fetchFailedWritten : CachedCertificate :=
  setUpstreamReady
    (setState (prepared (requestReconciler testing) syncedRequest)
              CachedCertificateStateError) false.

(** An upstream secret that has a certificate and no key. *)
Definition keylessSecret : Secret :=
  {| secret_ObjectMeta :=
       meta testing "cc-example.com" None
            (Some {[ CertificateNameAnnotationKey := "cc-example.com" ]});
     secret_Type := "kubernetes.io/tls";
     secret_Data := Some {[ "tls.crt" := [] ]} |}.

(** The target secret of the synced Request, as the materializer builds
    it. *)
Definition syncedSecret : Secret :=
  default (upstreamSecretOf "cc-example.com")
    (fst (genSecretForSync
            (Some (prepared (requestReconciler testing) syncedRequest))
            (Some (certificate "cc-example.com" ["example.com"]))
            (Some (upstreamSecretOf "cc-example.com")))).

(** Kinds of calls, to count them in the trace of a pass. *)
Definition isStatusUpdate (c : call) : bool :=
  match c with StatusUpdateCall _ _ => true | _ => false end.

Definition isSecretWrite (c : call) : bool :=
  match c with CreateSecretCall _ | UpdateSecretCall _ => true | _ => false end.

Definition isCertificateCreate (c : call) : bool :=
  match c with CreateCertificateCall _ => true | _ => false end.

Definition isFanOutCall (c : call) : bool :=
  match c with
  | StatusPatchCall _ _ | ListCachedCertificatesCall _ _ => true
  | _ => false
  end.

Definition countCalls (p : call -> bool) (tr : list call) : nat :=
  length (List.filter p tr).

(* ===================================================================== *)
(** ** Tactics *)
(* ===================================================================== *)

(** Case analysis on what the client answers, one call at a time: a
    scrutinee the run is stuck on is destructed, innermost first. *)
Ltac innermost_scrutinee x :=
  lazymatch x with
  | context [match ?y with _ => _ end] => innermost_scrutinee y
  | _ => destruct x eqn:?
  end.

Ltac run_step H :=
  match type of H with
  | context [match ?x with _ => _ end] => innermost_scrutinee x
  end;
  cbn [fst snd world trace negb] in H.

Ltac unfold_run H :=
  unfold Reconcile, Reconcile_sync, upsertTargetSecret, getUpstreamCertificate,
    createUpstreamCertificate, getUpstreamSecret, statusUpdate,
    bindR, invoke, retR in H;
  cbn [fst snd world trace negb] in H.

Ltac fold_prepared r c H :=
  let e := eval cbv beta zeta delta [prepared] in (prepared r c) in
  change e with (prepared r c) in H.

Ltac fold_prepared_goal r c :=
  let e := eval cbv beta zeta delta [prepared] in (prepared r c) in
  change e with (prepared r c).

(** Find a call in the trace of a concrete run. *)
Ltac pick_call :=
  vm_compute;
  repeat lazymatch goal with
         | |- _ \/ _ => first [left; reflexivity | right]
         end.


(** Run a pass through its first read and up to the read of the upstream
    Certificate. *)
Ltac start_pass r cc0 HG Href :=
  unfold Reconcile, bindR, invoke; cbn [world trace]; rewrite HG;
  cbv zeta; fold_prepared_goal r cc0;
  unfold getUpstreamCertificate, invoke; unfold upstreamKey in *;
  rewrite Href in *; cbn [world trace].

(* ===================================================================== *)
(** ** Properties of the library functions *)
(* ===================================================================== *)

Section string_order.

Lemma string_le_cases (a b : string) :
  string_le a b <-> String.compare a b = Lt \/ a = b.
Proof.
  unfold string_le, String.leb. split.
  - destruct (String.compare a b) eqn:E; intros H; try discriminate.
    + right. now apply String.compare_eq_iff.
    + now left.
  - intros [H | ->].
    + now rewrite H.
    + destruct (String.compare b b) eqn:E; try reflexivity.
      pose proof (String.compare_antisym b b) as H. rewrite E in H. discriminate.
Qed.

#[global] Instance string_le_total : Total string_le.
Proof.
  intros a b. rewrite !string_le_cases.
  pose proof (String.compare_antisym a b) as H.
  destruct (String.compare a b) eqn:E.
  - left. right. now apply String.compare_eq_iff.
  - left. now left.
  - right. left. destruct (String.compare b a); simpl in H; congruence.
Qed.

#[global] Instance string_le_trans : Transitive string_le.
Proof.
  intros a b c. rewrite !string_le_cases. intros [H1 | ->] [H2 | ->]; auto.
  left. exact (StrictOrder_Transitive (R := OrdersEx.String_as_OT.lt) a b c H1 H2).
Qed.

#[global] Instance string_le_antisym : AntiSymm (=) string_le.
Proof.
  intros a b. rewrite !string_le_cases. intros [H1 | ->] [H2 | H2]; auto.
  rewrite String.compare_antisym, H2 in H1. discriminate.
Qed.

(** The sorted arrangement of a multiset of strings is unique. *)
Lemma merge_sort_perm (l1 l2 : list string) :
  l1 ≡ₚ l2 -> merge_sort string_le l1 = merge_sort string_le l2.
Proof.
  intros HP. apply (Sorted_unique string_le).
  - apply Sorted_merge_sort; apply _.
  - apply Sorted_merge_sort; apply _.
  - now rewrite !merge_sort_Permutation.
Qed.

Lemma merge_sort_length (l : list string) :
  length (merge_sort string_le l) = length l.
Proof. now rewrite merge_sort_Permutation. Qed.

End string_order.

(* ===================================================================== *)
(** ** Memory facts *)
(* ===================================================================== *)

Section memory.

Lemma arrayOf_new (m : mem) (a : list string) (k : nat) :
  arrayOf (m ++ [a]) (Slice (length m) 0 k) = a.
Proof.
  unfold arrayOf; cbn [s_arr].
  rewrite lookup_app_r, Nat.sub_diag by lia. reflexivity.
Qed.

Lemma arrayOf_old (m : mem) (a : list string) (s : slice) :
  s_arr s < length m -> arrayOf (m ++ [a]) s = arrayOf m s.
Proof. unfold arrayOf. intros H. now rewrite lookup_app_l by exact H. Qed.

Lemma valid_in_mem (m : mem) (s : slice) :
  valid m s -> s_len s <> 0 -> s_arr s < length m.
Proof.
  unfold valid, arrayOf. intros Hv Hn.
  destruct (m !! s_arr s) eqn:E.
  - now apply lookup_lt_Some in E.
  - simpl in Hv. lia.
Qed.

Lemma load_length (m : mem) (s : slice) :
  valid m s -> length (load m s) = s_len s.
Proof. unfold valid, load. rewrite length_take, length_drop. lia. Qed.

Lemma load_new (m : mem) (a : list string) (k : nat) :
  k = length a -> load (m ++ [a]) (Slice (length m) 0 k) = a.
Proof. intros ->. unfold load. rewrite arrayOf_new. simpl. apply firstn_all. Qed.

Lemma load_old (m : mem) (a : list string) (s : slice) :
  s_arr s < length m -> load (m ++ [a]) s = load m s.
Proof. unfold load. intros H. now rewrite arrayOf_old. Qed.

Lemma store_new (m : mem) (a vs : list string) (k : nat) :
  length vs = length a ->
  store (m ++ [a]) (Slice (length m) 0 k) vs = m ++ [vs].
Proof.
  intros Hl. unfold store; simpl.
  replace (length m) with (length m + 0) at 1 by lia.
  rewrite alter_app_r. simpl. rewrite Hl, drop_all, app_nil_r. reflexivity.
Qed.

End memory.

Section deriver_run.

(** What a call does on a non-empty slice: one new array, holding the sorted
    copy, is allocated after the existing ones; nothing else is written. *)
Lemma getUpstreamCertificateName_run (m : mem) (s : slice) :
  valid m s -> s_len s <> 0 ->
  getUpstreamCertificateName s m =
    (nameOfSorted (merge_sort string_le (load m s)),
     m ++ [merge_sort string_le (load m s)]).
Proof.
  intros Hv Hn. unfold getUpstreamCertificateName.
  destruct (Nat.eqb_spec (s_len s) 0) as [E | _]; [contradiction |].
  pose proof (valid_in_mem m s Hv Hn) as Hlt.
  pose proof (load_length m s Hv) as Hlen.
  unfold bind, make, copy, sort.Strings, JoinSlice, ret. cbn [s_len].
  rewrite Nat.min_id, load_old by exact Hlt.
  assert (Ht : take (s_len s) (load m s) = load m s)
    by (rewrite <- Hlen; apply firstn_all).
  rewrite Ht.
  rewrite store_new by (now rewrite length_replicate).
  rewrite !(load_new m (load m s)) by (now symmetry).
  rewrite store_new by apply merge_sort_length.
  rewrite !load_new by (now rewrite merge_sort_length).
  reflexivity.
Qed.

Lemma getUpstreamCertificateName_empty (m : mem) (s : slice) :
  s_len s = 0 -> getUpstreamCertificateName s m = ("", m).
Proof. intros E. unfold getUpstreamCertificateName. now rewrite E. Qed.

Lemma upstreamCertificateName_cons (a : string) (l : list string) :
  upstreamCertificateName (a :: l) =
    nameOfSorted (merge_sort string_le (a :: l)).
Proof.
  unfold upstreamCertificateName.
  rewrite getUpstreamCertificateName_run.
  - cbn [fst]. f_equal. f_equal. unfold load, arrayOf. cbn [s_arr s_off s_len].
    simpl. now rewrite firstn_all.
  - unfold valid, arrayOf. simpl. lia.
  - simpl. lia.
Qed.

Lemma getUpstreamCertificateName_value (m : mem) (s : slice) :
  valid m s ->
  fst (getUpstreamCertificateName s m) = upstreamCertificateName (load m s).
Proof.
  intros Hv. pose proof (load_length m s Hv) as Hlen.
  destruct (Nat.eq_dec (s_len s) 0) as [E | N].
  - rewrite getUpstreamCertificateName_empty by exact E.
    destruct (load m s); [reflexivity | simpl in Hlen; lia].
  - rewrite getUpstreamCertificateName_run by assumption.
    destruct (load m s) as [| a l] eqn:El; [simpl in Hlen; lia |].
    now rewrite upstreamCertificateName_cons.
Qed.

End deriver_run.

(* ===================================================================== *)
(** ** String facts *)
(* ===================================================================== *)

Section string_facts.

Lemma length_append (a b : string) :
  String.length (a +:+ b) = String.length a + String.length b.
Proof. induction a as [| c a IH]; simpl; [reflexivity | now rewrite IH]. Qed.

Lemma append_cons (d : ascii) (a b : string) :
  String d a +:+ b = String d (a +:+ b).
Proof. reflexivity. Qed.

Lemma append_assoc (a b c : string) : (a +:+ b) +:+ c = a +:+ (b +:+ c).
Proof.
  induction a as [| d a IH]; [reflexivity |].
  now rewrite !append_cons, IH.
Qed.

Lemma length_substring0 (n : nat) (s : string) :
  String.length (String.substring 0 n s) = Nat.min n (String.length s).
Proof.
  revert s. induction n as [| n IH]; intros [| c s]; simpl; try reflexivity.
  now rewrite IH.
Qed.

Lemma ReplaceAll_length (s : string) (old new : ascii) :
  String.length (strings.ReplaceAll s old new) = String.length s.
Proof. induction s as [| c s IH]; simpl; [reflexivity | now rewrite IH]. Qed.

Lemma ReplaceAll_append (a b : string) (old new : ascii) :
  strings.ReplaceAll (a +:+ b) old new =
  strings.ReplaceAll a old new +:+ strings.ReplaceAll b old new.
Proof. induction a as [| c a IH]; simpl; [reflexivity | now rewrite IH]. Qed.

Lemma ReplaceAll_substring0 (n : nat) (s : string) (old new : ascii) :
  strings.ReplaceAll (String.substring 0 n s) old new =
  String.substring 0 n (strings.ReplaceAll s old new).
Proof.
  revert s. induction n as [| n IH]; intros [| c s]; simpl; try reflexivity.
  now rewrite IH.
Qed.

Lemma ReplaceAll_absent (s : string) (old new : ascii) :
  hasByte old s = false -> strings.ReplaceAll s old new = s.
Proof.
  induction s as [| c s IH]; simpl; [reflexivity |].
  intros H. apply orb_false_elim in H as [H1 H2].
  now rewrite H1, IH.
Qed.

Lemma hasByte_append (c : ascii) (a b : string) :
  hasByte c (a +:+ b) = hasByte c a || hasByte c b.
Proof.
  induction a as [| d a IH]; simpl; [reflexivity |].
  now rewrite IH, orb_assoc.
Qed.

Lemma hasByte_ReplaceAll (c old new : ascii) (s : string) :
  new <> c -> hasByte c s = false ->
  hasByte c (strings.ReplaceAll s old new) = false.
Proof.
  intros Hn. induction s as [| d s IH]; simpl; [reflexivity |].
  intros H. apply orb_false_elim in H as [H1 H2].
  rewrite (IH H2), orb_false_r.
  destruct (Ascii.eqb d old); [now apply Ascii.eqb_neq | exact H1].
Qed.

Lemma hasByte_Join (c : ascii) (sep : string) (l : list string) :
  hasByte c sep = false -> Forall (fun n => hasByte c n = false) l ->
  hasByte c (strings.Join l sep) = false.
Proof.
  intros Hs. unfold strings.Join.
  induction 1 as [| a l Ha Hl IH]; simpl; [reflexivity |].
  destruct l as [| b l]; [exact Ha |].
  now rewrite !hasByte_append, Ha, Hs, IH.
Qed.

Lemma Join_length (l : list string) (sep : string) :
  String.length (strings.Join l sep) = joinedLength (String.length sep) l.
Proof.
  unfold strings.Join. induction l as [| a l IH]; [reflexivity |].
  destruct l as [| b l]; [reflexivity |].
  cbn [String.concat joinedLength]. rewrite !length_append.
  cbn [String.concat joinedLength] in IH. rewrite IH. lia.
Qed.

Lemma joinedLength_sum (sep : nat) (l : list string) :
  joinedLength sep l + sep =
  foldr (fun a n => String.length a + sep + n) 0 l + (if l is [] then sep else 0).
Proof.
  induction l as [| a l IH]; [reflexivity |].
  destruct l as [| b l]; [simpl; lia |].
  cbn [joinedLength foldr] in *. lia.
Qed.

Lemma joinedLength_perm (sep : nat) (l1 l2 : list string) :
  l1 ≡ₚ l2 -> joinedLength sep l1 = joinedLength sep l2.
Proof.
  intros HP.
  assert (Hf : foldr (fun a n => String.length a + sep + n) 0 l1 =
               foldr (fun a n => String.length a + sep + n) 0 l2).
  { induction HP; cbn [foldr]; lia. }
  pose proof (joinedLength_sum sep l1) as H1.
  pose proof (joinedLength_sum sep l2) as H2.
  destruct l1 as [| a1 l1], l2 as [| a2 l2].
  - reflexivity.
  - apply Permutation_nil_l in HP. discriminate.
  - symmetry in HP. apply Permutation_nil_l in HP. discriminate.
  - lia.
Qed.

End string_facts.

(* ===================================================================== *)
(** ** The hash and its decimal rendering *)
(* ===================================================================== *)

Section hash_facts.

Local Open Scope Z_scope.

Lemma fnv_step_range (h : Z) (c : ascii) : 0 <= fnv.step h c < fnv.two64.
Proof. unfold fnv.step. apply Z.mod_pos_bound. reflexivity. Qed.

Lemma fnv_Write_range (s : string) (h : Z) :
  0 <= h < fnv.two64 -> 0 <= fnv.Write h s < fnv.two64.
Proof.
  revert h. induction s as [| c s IH]; intros h Hh; simpl; [exact Hh |].
  apply IH, fnv_step_range.
Qed.

Lemma digit_cases (d : Z) :
  0 <= d < 10 ->
  strconv.digit d <> backslash /\ strconv.digitValue (strconv.digit d) = d.
Proof.
  intros Hd.
  assert (H : d = 0 \/ d = 1 \/ d = 2 \/ d = 3 \/ d = 4 \/ d = 5 \/ d = 6 \/
              d = 7 \/ d = 8 \/ d = 9) by lia.
  repeat (destruct H as [-> | H]; [split; [discriminate | reflexivity] |]).
  subst d. split; [discriminate | reflexivity].
Qed.

Lemma formatBits_length (fuel : nat) (u : Z) (acc : string) :
  (String.length (strconv.formatBits fuel u acc) <= fuel + String.length acc)%nat.
Proof.
  revert u acc. induction fuel as [| fuel IH]; intros u acc; simpl; [lia |].
  destruct (u <? 10); simpl; [lia |].
  specialize (IH (u / 10) (String (strconv.digit (u mod 10)) acc)).
  simpl in IH. lia.
Qed.

Lemma formatBits_no_backslash (fuel : nat) (u : Z) (acc : string) :
  0 <= u -> hasByte backslash acc = false ->
  hasByte backslash (strconv.formatBits fuel u acc) = false.
Proof.
  revert u acc. induction fuel as [| fuel IH]; intros u acc Hu Hacc; simpl;
    [exact Hacc |].
  destruct (Z.ltb_spec u 10) as [Hlt | Hge].
  - simpl. rewrite Hacc, orb_false_r.
    apply Ascii.eqb_neq, digit_cases. lia.
  - apply IH.
    + apply Z.div_pos; lia.
    + simpl. rewrite Hacc, orb_false_r.
      apply Ascii.eqb_neq, digit_cases, Z.mod_pos_bound. lia.
Qed.

Lemma parseFrom_append (a b : string) (acc : Z) :
  strconv.parseFrom acc (a +:+ b) = strconv.parseFrom (strconv.parseFrom acc a) b.
Proof. revert acc. induction a as [| c a IH]; intros acc; simpl; auto. Qed.

Lemma formatBits_acc (fuel : nat) (u : Z) (acc : string) :
  strconv.formatBits fuel u acc = strconv.formatBits fuel u "" +:+ acc.
Proof.
  revert u acc. induction fuel as [| fuel IH]; intros u acc; simpl;
    [reflexivity |].
  destruct (u <? 10); [reflexivity |].
  rewrite (IH _ (String _ acc)), (IH _ (String _ "")).
  now rewrite append_assoc.
Qed.

(** With enough fuel for its digits, the rendering reads back as the value:
    the fuel never cuts a rendering short. *)
Lemma formatBits_parse (fuel : nat) (u : Z) :
  0 <= u < 10 ^ Z.of_nat fuel ->
  strconv.ParseUint (strconv.formatBits fuel u "") = u.
Proof.
  unfold strconv.ParseUint. revert u.
  induction fuel as [| fuel IH]; intros u Hu.
  - simpl in *. lia.
  - cbn [strconv.formatBits].
    destruct (Z.ltb_spec u 10) as [Hlt | Hge].
    + simpl. now rewrite (proj2 (digit_cases u (conj (proj1 Hu) Hlt))).
    + rewrite formatBits_acc, parseFrom_append, IH.
      * simpl. rewrite (proj2 (digit_cases (u mod 10) (Z.mod_pos_bound u 10 eq_refl))).
        pose proof (Z.div_mod u 10). lia.
      * rewrite Nat2Z.inj_succ, Z.pow_succ_r in Hu by lia.
        split; [apply Z.div_pos; lia | apply Z.div_lt_upper_bound; lia].
Qed.

Lemma FormatUint_parse (u : Z) :
  0 <= u < fnv.two64 -> strconv.ParseUint (strconv.FormatUint u) = u.
Proof.
  intros Hu. apply formatBits_parse.
  assert (fnv.two64 < 10 ^ Z.of_nat 20) by reflexivity. lia.
Qed.

Lemma genHash_length (s : string) : (String.length (genHash s) <= 20)%nat.
Proof.
  unfold genHash, strconv.FormatUint.
  pose proof (formatBits_length 20 (fnv.Sum64 (fnv.Write fnv.New64a s)) "").
  simpl in *. lia.
Qed.

Lemma genHash_no_backslash (s : string) : hasByte backslash (genHash s) = false.
Proof.
  unfold genHash, strconv.FormatUint, fnv.Sum64.
  apply formatBits_no_backslash; [| reflexivity].
  apply (fnv_Write_range s fnv.New64a).
  unfold fnv.New64a, fnv.offset64, fnv.two64. lia.
Qed.

End hash_facts.

(* ===================================================================== *)
(** ** The name deriver *)
(* ===================================================================== *)

Section deriver.

Lemma upstreamCertificateName_perm (l l' : list string) :
  l ≡ₚ l' -> upstreamCertificateName l = upstreamCertificateName l'.
Proof.
  intros HP. destruct l as [| a l], l' as [| a' l'].
  - reflexivity.
  - apply Permutation_nil_l in HP. discriminate.
  - symmetry in HP. apply Permutation_nil_l in HP. discriminate.
  - rewrite !upstreamCertificateName_cons. f_equal. now apply merge_sort_perm.
Qed.

Lemma getUpstreamCertificateName_frame (m : mem) (s : slice) :
  valid m s ->
  exists fresh, snd (getUpstreamCertificateName s m) = m ++ fresh.
Proof.
  intros Hv. destruct (Nat.eq_dec (s_len s) 0) as [E | N].
  - exists []. rewrite getUpstreamCertificateName_empty by exact E.
    now rewrite app_nil_r.
  - eexists. now rewrite getUpstreamCertificateName_run by assumption.
Qed.

Lemma load_frame (m fresh : mem) (s : slice) :
  valid m s -> load (m ++ fresh) s = load m s.
Proof.
  intros Hv. unfold load, arrayOf.
  destruct (m !! s_arr s) as [a |] eqn:E.
  - now rewrite (lookup_app_l_Some _ _ _ _ E).
  - unfold valid, arrayOf in Hv. rewrite E in Hv. simpl in Hv.
    assert (s_len s = 0) as -> by lia. reflexivity.
Qed.

(** C1. The derived name depends only on the multiset of the names: two
    slices whose contents are permutations of each other give the same name;
    and a call leaves the caller's slice, and every array that existed
    before the call, as it was: the memory after the call is the memory
    before it followed by freshly allocated arrays. *)
Theorem getUpstreamCertificateName_order_independent
    (m m' : mem) (s s' : slice) :
  valid m s -> valid m' s' -> load m s ≡ₚ load m' s' ->
  fst (getUpstreamCertificateName s m) = fst (getUpstreamCertificateName s' m')
  /\ load (snd (getUpstreamCertificateName s m)) s = load m s
  /\ exists fresh, snd (getUpstreamCertificateName s m) = m ++ fresh.
Proof.
  intros Hv Hv' HP. split; [| split].
  - rewrite !getUpstreamCertificateName_value by assumption.
    now apply upstreamCertificateName_perm.
  - destruct (getUpstreamCertificateName_frame m s Hv) as [fresh ->].
    now apply load_frame.
  - now apply getUpstreamCertificateName_frame.
Qed.

Lemma getUpstreamCertificateName_order_independent_witness :
  valid unsortedMem threeNames /\ valid sortedMem threeNames
  /\ load unsortedMem threeNames ≡ₚ load sortedMem threeNames
  /\ fst (getUpstreamCertificateName threeNames unsortedMem)
     = fst (getUpstreamCertificateName threeNames sortedMem)
  /\ load (snd (getUpstreamCertificateName threeNames unsortedMem)) threeNames
     = load unsortedMem threeNames.
Proof.
  assert (Hv : valid unsortedMem threeNames) by (vm_compute; lia).
  assert (Hv' : valid sortedMem threeNames) by (vm_compute; lia).
  assert (HP : load unsortedMem threeNames ≡ₚ load sortedMem threeNames)
    by (vm_compute; apply perm_swap).
  pose proof (getUpstreamCertificateName_order_independent
                unsortedMem sortedMem threeNames threeNames Hv Hv' HP)
    as (H1 & H2 & _).
  split; [exact Hv | split; [exact Hv' | split; [exact HP |]]].
  split; [exact H1 | exact H2].
Defined.

(** The code's name and the early-hash reference, on sorted names. *)
Lemma nameOfSorted_reference (dnsNames : list string) :
  nameOfSorted (merge_sort string_le dnsNames) = referenceNameHashedEarly dnsNames.
Proof.
  unfold nameOfSorted, referenceNameHashedEarly, maxSecretNameLength, hashPrefixLength.
  cbv zeta. f_equal. rewrite !ReplaceAll_length.
  destruct (Nat.ltb 253 _); [| reflexivity].
  rewrite ReplaceAll_append, ReplaceAll_substring0.
  now rewrite (ReplaceAll_absent (genHash _)) by apply genHash_no_backslash.
Qed.

Lemma referenceNameHashedEarly_agrees (dnsNames : list string) :
  joinedLength 1 dnsNames <= 253
  \/ Forall (fun n => hasByte backslash n = false) dnsNames ->
  referenceNameHashedEarly dnsNames = referenceName dnsNames.
Proof.
  unfold referenceNameHashedEarly, referenceName. cbv zeta.
  intros [Hshort | Hclean].
  - rewrite !ReplaceAll_length, Join_length.
    rewrite (joinedLength_perm _ _ dnsNames) by apply merge_sort_Permutation.
    change (String.length "-") with 1.
    destruct (Nat.ltb_spec 253 (joinedLength 1 dnsNames)); [lia | reflexivity].
  - assert (Hj : hasByte backslash
             (strings.ReplaceAll (strings.Join (merge_sort string_le dnsNames) "-") star ex)
           = false).
    { apply hasByte_ReplaceAll; [discriminate |].
      apply hasByte_Join; [reflexivity |].
      now rewrite merge_sort_Permutation. }
    now rewrite (ReplaceAll_absent _ backslash ex Hj).
Qed.

(** C2 (amended). On a non-empty slice the deriver returns the reference of
    the specification with one difference: the hash appended to an over-long
    name is taken of the joined string in which the wildcards are replaced
    and the backslashes are not yet. Whenever the joined string has at most
    253 characters, or no name holds a backslash, this is the reference
    itself. The two documented examples hold. *)
Theorem getUpstreamCertificateName_reference (m : mem) (s : slice) :
  valid m s -> s_len s <> 0 ->
  fst (getUpstreamCertificateName s m) = referenceNameHashedEarly (load m s)
  /\ (joinedLength 1 (load m s) <= 253
      \/ Forall (fun n => hasByte backslash n = false) (load m s) ->
      fst (getUpstreamCertificateName s m) = referenceName (load m s))
  /\ upstreamCertificateName ["test.example.com"] = "cc-test.example.com"
  /\ upstreamCertificateName ["test.example.com"; "secondary.example.com"]
     = "cc-secondary.example.com-test.example.com".
Proof.
  intros Hv Hn.
  assert (H : fst (getUpstreamCertificateName s m) = referenceNameHashedEarly (load m s)).
  { rewrite getUpstreamCertificateName_run by assumption.
    apply nameOfSorted_reference. }
  split; [exact H | split; [| split]].
  - intros Hc. rewrite H. now apply referenceNameHashedEarly_agrees.
  - vm_compute. reflexivity.
  - vm_compute. reflexivity.
Qed.

Lemma getUpstreamCertificateName_reference_witness :
  valid twoNamesMem twoNames /\ s_len twoNames <> 0
  /\ fst (getUpstreamCertificateName twoNames twoNamesMem)
     = referenceName (load twoNamesMem twoNames).
Proof.
  assert (Hv : valid twoNamesMem twoNames) by (vm_compute; lia).
  assert (Hn : s_len twoNames <> 0) by (vm_compute; lia).
  pose proof (getUpstreamCertificateName_reference twoNamesMem twoNames Hv Hn)
    as (_ & H & _).
  split; [exact Hv | split; [exact Hn |]].
  apply H. left. vm_compute. lia.
Defined.

(** C2 as stated fails: on an over-long input holding a backslash the hash
    suffix is not the hash of the fully replaced string. *)
Lemma getUpstreamCertificateName_reference_counterexample :
  upstreamCertificateName [longBackslashName] <> referenceName [longBackslashName].
Proof. vm_compute. discriminate. Qed.

(** C6 as stated fails: the empty sequence gives the empty string, which
    does not begin with [cc-]. *)
Lemma derived_name_prefix_counterexample :
  upstreamCertificateName [] = ""
  /\ String.prefix "cc-" (upstreamCertificateName []) = false.
Proof. split; reflexivity. Qed.

(** The vectors of the unit tests. *)
Lemma test_vectors :
  upstreamCertificateName longInput
  = "cc-a.example.com-" +:+ repeatByte "b" 63 +:+ ".example.com-"
    +:+ repeatByte "c" 35 +:+ "12004226272052881208"
  /\ genHash "hash" = "3331993900282443793"
  /\ genHash "hash2" = "12478621798616408953".
Proof. repeat split; vm_compute; reflexivity. Qed.

(** A joined string of 251 to 253 characters is not hashed, and the prefix
    takes the name past 253 characters. *)
Lemma derived_name_overlong :
  String.length (upstreamCertificateName [repeatByte "a" 251]) = 254.
Proof. vm_compute. reflexivity. Qed.

Lemma nameOfSorted_prefix (names : list string) :
  String.prefix "cc-" (nameOfSorted names) = true.
Proof.
  unfold nameOfSorted. cbv zeta.
  generalize (strings.ReplaceAll
    (if Nat.ltb maxSecretNameLength
          (String.length (strings.ReplaceAll (strings.Join names "-") star ex))
     then String.substring 0 (hashPrefixLength - 3)
            (strings.ReplaceAll (strings.Join names "-") star ex)
          +:+ genHash (strings.ReplaceAll (strings.Join names "-") star ex)
     else strings.ReplaceAll (strings.Join names "-") star ex) backslash ex).
  intros body. destruct body; reflexivity.
Qed.

Lemma nameOfSorted_length (names : list string) :
  joinedLength 1 names <= 250 \/ 253 < joinedLength 1 names ->
  String.length (nameOfSorted names) <= 253.
Proof.
  unfold nameOfSorted, maxSecretNameLength, hashPrefixLength. cbv zeta.
  rewrite length_append, !ReplaceAll_length, Join_length.
  change (String.length "-") with 1. change (String.length "cc-") with 3.
  intros H.
  destruct (Nat.ltb_spec 253 (joinedLength 1 names)) as [Hlong | Hshort].
  - rewrite length_append, length_substring0.
    pose proof (genHash_length
      (strings.ReplaceAll (strings.Join names "-") star ex)). lia.
  - rewrite ReplaceAll_length, Join_length. change (String.length "-") with 1. lia.
Qed.

(** C6 (amended). The empty slice gives the empty string. On a non-empty
    slice the derived name begins with [cc-]; and it is at most 253
    characters long whenever the names joined with [-] take at most 250
    characters or more than 253. *)
Theorem derived_name_prefix_and_length (m : mem) (s : slice) :
  valid m s ->
  (s_len s = 0 -> fst (getUpstreamCertificateName s m) = "")
  /\ (s_len s <> 0 ->
      String.prefix "cc-" (fst (getUpstreamCertificateName s m)) = true)
  /\ (s_len s <> 0 ->
      joinedLength 1 (load m s) <= 250 \/ 253 < joinedLength 1 (load m s) ->
      String.length (fst (getUpstreamCertificateName s m)) <= 253).
Proof.
  intros Hv. split; [| split].
  - intros E. now rewrite getUpstreamCertificateName_empty.
  - intros Hn. rewrite getUpstreamCertificateName_run by assumption.
    apply nameOfSorted_prefix.
  - intros Hn Hl. rewrite getUpstreamCertificateName_run by assumption.
    apply nameOfSorted_length.
    now rewrite (joinedLength_perm _ _ (load m s)) by apply merge_sort_Permutation.
Qed.

Lemma derived_name_prefix_and_length_witness :
  valid twoNamesMem twoNames
  /\ String.prefix "cc-" (fst (getUpstreamCertificateName twoNames twoNamesMem)) = true
  /\ String.length (fst (getUpstreamCertificateName twoNames twoNamesMem)) <= 253.
Proof.
  assert (Hv : valid twoNamesMem twoNames) by (vm_compute; lia).
  pose proof (derived_name_prefix_and_length twoNamesMem twoNames Hv)
    as (_ & H2 & H3).
  split; [exact Hv | split].
  - apply H2. vm_compute. lia.
  - apply H3; [vm_compute; lia | left; vm_compute; lia].
Defined.

End deriver.

(* ===================================================================== *)
(** ** The secret materializer *)
(* ===================================================================== *)

Section materializer.

(** C9. [genSecretForSync] returns an error and no secret exactly when one
    of its three inputs is nil. With the three inputs present it returns,
    without error, a secret named by the Request's [secretName], in the
    Request's namespace, labelled with the marker label set to "true",
    annotated with the source annotation "<namespace>/<name>" of the
    Request, owned through a single controller reference to the Request,
    and with the type and data of the upstream Secret. *)
Theorem genSecretForSync_spec (cachedCert : option CachedCertificate)
    (upstreamCert : option Unstructured) (upstreamSecret : option Secret) :
  ((exists e, genSecretForSync cachedCert upstreamCert upstreamSecret = (None, Some e))
   <-> (cachedCert = None \/ upstreamCert = None \/ upstreamSecret = None))
  /\ match cachedCert, upstreamCert, upstreamSecret with
     | Some cc, Some _, Some us =>
         exists secret,
           genSecretForSync cachedCert upstreamCert upstreamSecret = (Some secret, None)
           /\ Name (secret_ObjectMeta secret) = SecretName (Spec cc)
           /\ Namespace (secret_ObjectMeta secret) = Namespace (cc_ObjectMeta cc)
           /\ mapLookup (Labels (secret_ObjectMeta secret)) SyncedLabelKey = Some "true"
           /\ mapLookup (Annotations (secret_ObjectMeta secret)) SourceAnnotationKey
              = Some (Namespace (cc_ObjectMeta cc) +:+ "/" +:+ Name (cc_ObjectMeta cc))
           /\ (exists ref,
                 OwnerReferences (secret_ObjectMeta secret) = [ref]
                 /\ or_Name ref = Name (cc_ObjectMeta cc)
                 /\ or_UID ref = UID (cc_ObjectMeta cc)
                 /\ or_Kind ref = Kind (cc_TypeMeta cc)
                 /\ or_Controller ref = Some true)
           /\ secret_Type secret = secret_Type us
           /\ secret_Data secret = secret_Data us
     | _, _, _ =>
         exists e, genSecretForSync cachedCert upstreamCert upstreamSecret = (None, Some e)
     end.
Proof.
  split.
  - split.
    + intros [e He].
      destruct cachedCert as [cc |]; [| now left].
      destruct upstreamCert as [uc |]; [| now right; left].
      destruct upstreamSecret as [us |]; [| now right; right].
      simpl in He. discriminate.
    + intros [-> | [-> | ->]].
      * eexists. reflexivity.
      * destruct cachedCert; eexists; reflexivity.
      * destruct cachedCert, upstreamCert; eexists; reflexivity.
  - destruct cachedCert as [cc |]; [| eexists; reflexivity].
    destruct upstreamCert as [uc |]; [| eexists; reflexivity].
    destruct upstreamSecret as [us |]; [| eexists; reflexivity].
    eexists. split; [reflexivity |]. cbn [secret_ObjectMeta Name Namespace
      Labels Annotations OwnerReferences secret_Type secret_Data mapLookup].
    unfold mapAssign. rewrite !lookup_insert_eq.
    repeat split. eexists. split; [reflexivity |]. repeat split.
Qed.

End materializer.

(* ===================================================================== *)
(** ** The target-secret upsert *)
(* ===================================================================== *)

Section upsert.

Context {W : Type} (r : CachedCertificateReconciler W).

(** What the upsert does when a secret exists at the target. *)
Lemma upsertTargetSecret_existing (secret existing : Secret) (s : st W) (w1 : W) :
  GetSecret (client_ r) (targetKey secret) (world s) = (inr existing, w1) ->
  upsertTargetSecret r secret s =
    if hasKey (Labels (secret_ObjectMeta existing)) SyncedLabelKey
    then (fst (UpdateSecret (client_ r) secret w1),
          St (snd (UpdateSecret (client_ r) secret w1))
             (trace s ++ [GetSecretCall (targetKey secret); UpdateSecretCall secret]))
    else (Some refusal, St w1 (trace s ++ [GetSecretCall (targetKey secret)])).
Proof.
  intros HG. unfold upsertTargetSecret, bindR, invoke, retR.
  fold (targetKey secret). rewrite HG.
  destruct (hasKey _ _); cbn [negb world trace]; [| reflexivity].
  destruct (UpdateSecret _ _ _). cbn [fst snd]. now rewrite <- app_assoc.
Qed.

Lemma hasKey_lookup {V} (m : gomap V) (k : string) :
  hasKey m k = false <-> mapLookup m k = None.
Proof. unfold hasKey. destruct (mapLookup m k); split; congruence. Qed.

(** C10. Ownership of an existing target secret is decided by the presence
    of the marker label key, whatever its value: with the key present the
    upsert issues the update with the new secret and returns what the update
    returns; the refusal is returned, and nothing written, when the key is
    absent. The event filter of the fan-out instead compares the value of
    the marker label with "true": a secret passes it whenever that value is
    anything else. *)
Theorem upsertTargetSecret_marker_presence
    (secret existing : Secret) (s : st W) (w1 : W) :
  GetSecret (client_ r) (targetKey secret) (world s) = (inr existing, w1) ->
  (forall v : string,
      mapLookup (Labels (secret_ObjectMeta existing)) SyncedLabelKey = Some v ->
      upsertTargetSecret r secret s =
        (fst (UpdateSecret (client_ r) secret w1),
         St (snd (UpdateSecret (client_ r) secret w1))
            (trace s ++ [GetSecretCall (targetKey secret); UpdateSecretCall secret])))
  /\ (mapLookup (Labels (secret_ObjectMeta existing)) SyncedLabelKey = None ->
      upsertTargetSecret r secret s =
        (Some refusal, St w1 (trace s ++ [GetSecretCall (targetKey secret)])))
  /\ (forall (ns : string) (o : ObjectMeta),
       namespaceAndLabelsPredicate ns o = true <->
       Namespace o = ns
       /\ mapIndex (Annotations o) CertificateNameAnnotationKey <> ""
       /\ mapIndex (Labels o) SyncedLabelKey <> "true").
Proof.
  intros HG. rewrite (upsertTargetSecret_existing _ _ _ _ HG).
  split; [| split].
  - intros v Hv. unfold hasKey. now rewrite Hv.
  - intros Hn. apply hasKey_lookup in Hn. now rewrite Hn.
  - intros ns o. unfold namespaceAndLabelsPredicate.
    rewrite !andb_true_iff, !negb_true_iff, String.eqb_eq, !String.eqb_neq.
    tauto.
Qed.

(** C4. When a secret exists at the target name and namespace without the
    marker label, the upsert returns the ownership-conflict error after its
    one read, and the rest of the pass writes the Request's status with
    state Error: the calls issued are that read and the status update, so
    no create or update of a secret is issued and the foreign secret stays
    as it was. *)
Theorem foreign_secret_refused
    (cachedCert : CachedCertificate) (upstreamCert : Unstructured)
    (upstreamSecret secret existing : Secret) (s : st W) (w1 : W) :
  genSecretForSync (Some cachedCert) (Some upstreamCert) (Some upstreamSecret)
    = (Some secret, None) ->
  validateSecret (Some secret) = None ->
  GetSecret (client_ r) (targetKey secret) (world s) = (inr existing, w1) ->
  mapLookup (Labels (secret_ObjectMeta existing)) SyncedLabelKey = None ->
  upsertTargetSecret r secret s =
    (Some refusal, St w1 (trace s ++ [GetSecretCall (targetKey secret)]))
  /\ (let written := setState cachedCert CachedCertificateStateError in
      let update := StatusUpdate (client_ r) written w1 in
      Reconcile_sync r cachedCert upstreamCert upstreamSecret s =
        ((noResult, fst update),
         St (snd update)
            (trace s ++ [GetSecretCall (targetKey secret);
                         StatusUpdateCall UpsertFailed written]))
      /\ State (Status written) = CachedCertificateStateError).
Proof.
  intros Hgen Hvalid HG Hlabel.
  assert (Hup : upsertTargetSecret r secret s =
                (Some refusal, St w1 (trace s ++ [GetSecretCall (targetKey secret)]))).
  { rewrite (upsertTargetSecret_existing _ _ _ _ HG).
    apply hasKey_lookup in Hlabel. now rewrite Hlabel. }
  split; [exact Hup |]. cbv zeta. split; [| reflexivity].
  unfold Reconcile_sync. rewrite Hgen, Hvalid. unfold bindR. rewrite Hup.
  unfold statusUpdate, invoke, retR. cbn [world trace].
  destruct (StatusUpdate _ _ _) as [[e |] w2]; cbn [fst snd];
    now rewrite <- app_assoc.
Qed.

End upsert.

(* ===================================================================== *)
(** ** The set-equality comparator *)
(* ===================================================================== *)

Section comparator.

Lemma at_eq_ext (x y : list string) :
  length x = length y ->
  (forall i, i < length x -> at_ y i = at_ x i) -> x = y.
Proof.
  intros Hl H. apply list_eq. intros i.
  destruct (Nat.lt_ge_cases i (length x)) as [Hi | Hi].
  - specialize (H i Hi). unfold at_ in H.
    destruct (lookup_lt_is_Some_2 x i Hi) as [a Ha].
    destruct (lookup_lt_is_Some_2 y i ltac:(lia)) as [b Hb].
    rewrite Ha, Hb in *. simpl in H. now subst.
  - rewrite !lookup_ge_None_2 by lia. reflexivity.
Qed.

(** The comparator holds exactly of two sequences that are permutations of
    each other. *)
Lemma slicesEqualAfterSort_spec (x y : list string) :
  slicesEqualAfterSort x y = true <-> x ≡ₚ y.
Proof.
  unfold slicesEqualAfterSort.
  destruct (Nat.eqb_spec (length x) (length y)) as [Hl | Hl]; cbn [negb].
  2: { split; [discriminate |]. intros HP. now apply Permutation_length in HP. }
  destruct (Nat.eqb_spec (length x) 1) as [H1 | H1].
  - destruct x as [| a [| ? ?]]; try discriminate.
    destruct y as [| b [| ? ?]]; try discriminate.
    unfold at_. simpl. rewrite String.eqb_eq. split.
    + now intros ->.
    + intros HP. now apply Permutation_singleton_inj in HP.
  - rewrite forallb_forall. split.
    + intros H.
      rewrite <- (merge_sort_Permutation string_le x).
      rewrite <- (merge_sort_Permutation string_le y).
      replace (merge_sort string_le y) with (merge_sort string_le x); [reflexivity |].
      apply at_eq_ext.
      * now rewrite !merge_sort_length.
      * intros i Hi. apply String.eqb_eq, H, in_seq. lia.
    + intros HP i _. rewrite (merge_sort_perm x y HP). apply String.eqb_refl.
Qed.

Lemma slicesEqualAfterSort_sets (x y : list string) :
  ~ sameNameSet x y -> slicesEqualAfterSort x y = false.
Proof.
  intros Hd. destruct (slicesEqualAfterSort x y) eqn:E; [| reflexivity].
  exfalso. apply Hd. apply slicesEqualAfterSort_spec in E.
  intros n. now rewrite E.
Qed.

End comparator.

(* ===================================================================== *)
(** ** The request reconciler *)
(* ===================================================================== *)

Section request_pass.

Context {W : Type} (r : CachedCertificateReconciler W).

Lemma Reconcile_status_writes (req : NamespacedName) (w : W)
    (at_site : site) (obj : CachedCertificate) :
  In (StatusUpdateCall at_site obj) (trace (snd (Reconcile r req (St w [])))) ->
  exists cc0 w1,
    GetCachedCertificate (client_ r) req w = (inr cc0, w1)
    /\ writtenAt at_site (prepared r cc0) obj.
Proof.
  intros H. unfold_run H.
  destruct (GetCachedCertificate (client_ r) req w) as [[err | cc0] w1] eqn:HG;
    cbn [fst snd world trace negb] in H.
  - destruct (IsNotFound err); simpl in H; intuition discriminate.
  - exists cc0, w1. split; [reflexivity |].
    fold_prepared r cc0 H.
    generalize dependent (prepared r cc0). intros cc H.
    repeat run_step H.
    all: simpl in H; intuition (try discriminate).
    all: match goal with
         | E : StatusUpdateCall _ _ = StatusUpdateCall _ _ |- _ =>
             injection E as <- <-
         end.
    all: cbn [writtenAt].
    all: repeat match goal with
         | E : negb _ = true |- _ => apply negb_true_iff in E
         | E : negb _ = false |- _ => apply negb_false_iff in E
         | E : _ || _ = true |- _ => apply orb_true_iff in E; destruct E
         | E : String.eqb _ _ = false |- _ => apply String.eqb_neq in E
         end.
    all: intuition (auto; congruence).
Qed.

Lemma prepared_status (cc0 : CachedCertificate) :
  State (Status (prepared r cc0)) = State (Status cc0)
  /\ UpstreamReady (Status (prepared r cc0)) = UpstreamReady (Status cc0)
  /\ DNSNames (Spec (prepared r cc0)) = DNSNames (Spec cc0)
  /\ exists ref, UpstreamRef (Status (prepared r cc0)) = Some ref.
Proof.
  unfold prepared. cbv zeta.
  destruct (String.eqb (SecretName (Spec cc0)) "");
    cbn [setSecretName Status Spec DNSNames];
    destruct (UpstreamRef (Status cc0)) as [ref |] eqn:E;
    cbn [setUpstreamRef setStatus Status Spec State UpstreamReady UpstreamRef DNSNames];
    repeat split; eauto.
Qed.

(** C3. In a pass that fetches the Request and its upstream Certificate, and
    finds the dnsNames of the two different as sets, the reconciler issues
    one status update carrying state Pending, upstreamReady false and no
    upstream reference, and nothing after it: the calls of the pass are the
    two reads and that update, so the upstream secret is not fetched and no
    secret is materialized, created or updated. *)
Theorem stale_binding_resets (req : NamespacedName) (cc0 : CachedCertificate)
    (cert : Unstructured) (names : list string) (w w1 w2 : W) (tr : list call) :
  GetCachedCertificate (client_ r) req w = (inr cc0, w1) ->
  GetCertificate (client_ r) (upstreamKey (prepared r cc0)) w1 = (inr cert, w2) ->
  u_dnsNames cert = Present names ->
  ~ sameNameSet names (DNSNames (Spec cc0)) ->
  let written :=
    setUpstreamRef
      (setUpstreamReady (setState (prepared r cc0) CachedCertificateStatePending) false)
      None in
  let update := StatusUpdate (client_ r) written w2 in
  Status written =
    {| UpstreamReady := false; UpstreamRef := None;
       State := CachedCertificateStatePending |}
  /\ snd (Reconcile r req (St w tr)) =
       St (snd update)
          (tr ++ [GetCachedCertificateCall req;
                  GetCertificateCall (upstreamKey (prepared r cc0));
                  StatusUpdateCall StaleBinding written])
  /\ fst (Reconcile r req (St w tr)) =
       match fst update with
       | Some err => ({| Requeue := false; RequeueAfter := time.Second * 2 |}, Some err)
       | None => (noResult, None)
       end.
Proof.
  intros HG HC Hd Hne written update.
  split; [reflexivity |].
  destruct (prepared_status cc0) as (_ & _ & Hdns & ref & Href).
  assert (Hcmp : slicesEqualAfterSort names (DNSNames (Spec (prepared r cc0))) = false)
    by (rewrite Hdns; now apply slicesEqualAfterSort_sets).
  unfold Reconcile, bindR, invoke. cbn [world trace]. rewrite HG.
  cbv zeta. fold_prepared_goal r cc0.
  unfold getUpstreamCertificate, invoke. unfold upstreamKey in *.
  rewrite Href in *. cbn [world trace]. rewrite HC, Hd.
  cbn [unstructured.NestedStringSlice negb]. rewrite Hcmp. cbn [negb].
  unfold statusUpdate, invoke, bindR, retR. cbn [world trace].
  fold written. fold update.
  destruct update as [[e |] w3]; cbn [fst snd];
    rewrite <- !app_assoc; split; reflexivity.
Qed.

(** How a pass reaches the end of [Reconcile]: the Request and its upstream
    Certificate are fetched, the dnsNames agree, the upstream secret is
    found; the readiness is written first when it was not recorded. *)
Lemma Reconcile_reaches_sync (req : NamespacedName) (cc0 : CachedCertificate)
    (cert : Unstructured) (names : list string) (secretName : string)
    (upstreamSecret : Secret) (w w1 w2 w3 : W) (tr : list call) :
  GetCachedCertificate (client_ r) req w = (inr cc0, w1) ->
  GetCertificate (client_ r) (upstreamKey (prepared r cc0)) w1 = (inr cert, w2) ->
  u_dnsNames cert = Present names ->
  names ≡ₚ DNSNames (Spec cc0) ->
  u_secretName cert = Present secretName ->
  secretName <> "" ->
  GetSecret (client_ r)
    {| nn_Namespace := u_namespace cert; nn_Name := secretName |} w2
    = (inr upstreamSecret, w3) ->
  let reads :=
    [GetCachedCertificateCall req;
     GetCertificateCall (upstreamKey (prepared r cc0));
     GetSecretCall {| nn_Namespace := u_namespace cert; nn_Name := secretName |}] in
  (UpstreamReady (Status cc0) = true ->
   Reconcile r req (St w tr) =
     Reconcile_sync r (prepared r cc0) cert upstreamSecret (St w3 (tr ++ reads)))
  /\ (forall w4,
        UpstreamReady (Status cc0) = false ->
        StatusUpdate (client_ r) (setUpstreamReady (prepared r cc0) true) w3 = (None, w4) ->
        Reconcile r req (St w tr) =
          Reconcile_sync r (setUpstreamReady (prepared r cc0) true) cert upstreamSecret
            (St w4 (tr ++ reads
                       ++ [StatusUpdateCall UpstreamReadyWrite
                             (setUpstreamReady (prepared r cc0) true)]))).
Proof.
  intros HG HC Hd HP Hs Hne HS reads. subst reads.
  destruct (prepared_status cc0) as (_ & Hrd & Hdns & ref & Href).
  assert (Hcmp : slicesEqualAfterSort names (DNSNames (Spec (prepared r cc0))) = true)
    by (rewrite Hdns; now apply slicesEqualAfterSort_spec).
  apply String.eqb_neq in Hne.
  assert (Hrun :
    Reconcile r req (St w tr) =
      (if negb (UpstreamReady (Status (prepared r cc0)))
       then
         bindR (statusUpdate r UpstreamReadyWrite (setUpstreamReady (prepared r cc0) true))
           (fun err =>
              match err with
              | Some err => retR (noResult, Some err)
              | None => Reconcile_sync r (setUpstreamReady (prepared r cc0) true)
                          cert upstreamSecret
              end)
       else Reconcile_sync r (prepared r cc0) cert upstreamSecret)
      (St w3 (tr ++ [GetCachedCertificateCall req;
                     GetCertificateCall (upstreamKey (prepared r cc0));
                     GetSecretCall {| nn_Namespace := u_namespace cert;
                                      nn_Name := secretName |}]))).
  { unfold Reconcile, bindR, invoke. cbn [world trace]. rewrite HG.
    cbv zeta. fold_prepared_goal r cc0.
    unfold getUpstreamCertificate, invoke. unfold upstreamKey in *.
    rewrite Href in *. cbn [world trace]. rewrite HC, Hd.
    cbn [unstructured.NestedStringSlice negb]. rewrite Hcmp. cbn [negb].
    unfold getUpstreamSecret, invoke. rewrite Hs.
    cbn [unstructured.NestedString negb]. rewrite Hne. cbn [world trace].
    rewrite HS. now rewrite <- !app_assoc. }
  rewrite Hrd in Hrun.
  split.
  - intros Hready. rewrite Hrun, Hready. reflexivity.
  - intros w4 Hready HU. rewrite Hrun, Hready. cbn [negb].
    unfold bindR, statusUpdate, invoke. cbn [world trace]. rewrite HU.
    now rewrite <- app_assoc.
Qed.

(** C7 (amended). Two status writes of a pass are guarded: the
    Pending/not-ready write made when the upstream secret is not found is
    issued only if the state is not Pending or upstreamReady is set, and the
    upstreamReady write made when the secret is found is issued only if
    upstreamReady was not set. Whenever one of them is issued, the status it
    carries differs from the status the Request was fetched with. *)
Theorem guarded_status_writes_differ (req : NamespacedName) (w : W)
    (at_site : site) (obj : CachedCertificate) :
  In (StatusUpdateCall at_site obj) (trace (snd (Reconcile r req (St w [])))) ->
  at_site = SecretNotFound \/ at_site = UpstreamReadyWrite ->
  exists cc0 w1,
    GetCachedCertificate (client_ r) req w = (inr cc0, w1)
    /\ Status obj <> Status cc0
    /\ (at_site = SecretNotFound ->
        State (Status cc0) <> CachedCertificateStatePending
        \/ UpstreamReady (Status cc0) = true)
    /\ (at_site = UpstreamReadyWrite -> UpstreamReady (Status cc0) = false).
Proof.
  intros H Hsite.
  destruct (Reconcile_status_writes req w at_site obj H) as (cc0 & w1 & HG & Hw).
  exists cc0, w1. split; [exact HG |].
  destruct (prepared_status cc0) as (Hst & Hrd & _ & _).
  destruct Hsite as [-> | ->]; cbn [writtenAt] in Hw.
  - destruct Hw as [-> Hguard]. rewrite Hst, Hrd in Hguard.
    split; [| split; [intros _; exact Hguard | discriminate]].
    intros Heq. cbn [setUpstreamReady setState setStatus Status] in Heq.
    destruct Hguard as [Hg | Hg]; rewrite <- Heq in Hg; cbn in Hg; congruence.
  - destruct Hw as [-> Hguard]. rewrite Hrd in Hguard.
    split; [| split; [discriminate | intros _; exact Hguard]].
    intros Heq. cbn [setUpstreamReady setStatus Status] in Heq.
    rewrite <- Heq in Hguard. cbn in Hguard. congruence.
Qed.

End request_pass.

(* ===================================================================== *)
(** ** The fan-out reconciler *)
(* ===================================================================== *)

Section fan_out.

Context {W : Type} (r : UpstreamSecretReconciler W).

Lemma patchItems_run (items : list CachedCertificate) (s : st W) :
  exists k,
    k <= length items
    /\ trace (snd (patchItems r items s)) = trace s ++ map patchCall (take k items)
    /\ (snd (fst (patchItems r items s)) = None -> k = length items).
Proof.
  revert s. induction items as [| cert rest IH]; intros s.
  - exists 0. simpl. now rewrite app_nil_r.
  - cbn [patchItems]. unfold bindR, invoke.
    destruct (StatusPatch _ _ _ _) as [[e |] w1].
    + exists 1. cbn [fst snd trace length]. split; [lia |].
      split; [reflexivity | discriminate].
    + destruct (IH (St w1 (trace s ++ [patchCall cert]))) as (k & Hk & Ht & Hn).
      exists (S k). cbn [length]. split; [lia |]. split.
      * unfold patchCall in *. rewrite Ht. cbn [trace take map].
        now rewrite <- app_assoc.
      * intros Hnone. f_equal. now apply Hn.
Qed.

Lemma setState_same (cert : CachedCertificate) :
  setState cert (State (Status cert)) = cert.
Proof. destruct cert as [tm om sp [rd rf st]]. reflexivity. Qed.

(** C5 (amended). On an upstream-secret pass that reads a secret naming its
    Certificate and lists the dependents through the index, the fan-out
    issues a status merge patch setting state Pending for the dependents in
    list order, for every one of them unless a patch fails, whatever their
    current state: for a dependent that is already Pending the patch is
    issued all the same, with the patched object equal to its base. *)
Theorem fan_out_patches_each_dependent (req : NamespacedName) (secret : Secret)
    (items : list CachedCertificate) (s : st W) (w1 w2 : W) :
  GetSecret (us_client r) req (world s) = (inr secret, w1) ->
  mapIndex (Annotations (secret_ObjectMeta secret)) CertificateNameAnnotationKey <> "" ->
  ListCachedCertificates (us_client r) (CertNameIndexKey r)
    (mapIndex (Annotations (secret_ObjectMeta secret)) CertificateNameAnnotationKey) w1
    = (inr items, w2) ->
  (exists k,
      k <= length items
      /\ trace (snd (ReconcileUpstreamSecret r req s)) =
           trace s
           ++ [GetSecretCall req;
               ListCachedCertificatesCall (CertNameIndexKey r)
                 (mapIndex (Annotations (secret_ObjectMeta secret))
                           CertificateNameAnnotationKey)]
           ++ map patchCall (take k items)
      /\ (snd (fst (ReconcileUpstreamSecret r req s)) = None -> k = length items))
  /\ (forall cert,
        State (Status cert) = CachedCertificateStatePending ->
        patchCall cert = StatusPatchCall cert cert).
Proof.
  intros HG Hname HL. split.
  - unfold ReconcileUpstreamSecret, bindR, invoke. rewrite HG.
    apply String.eqb_neq in Hname. rewrite Hname. cbn [world trace]. rewrite HL.
    match goal with
    | |- context [patchItems r items ?s0] =>
        destruct (patchItems_run items s0) as (k & Hk & Ht & Hn)
    end.
    exists k. split; [exact Hk |]. split; [| exact Hn].
    rewrite Ht. cbn [trace]. now rewrite <- !app_assoc.
  - intros cert Hp. unfold patchCall. rewrite <- Hp. now rewrite setState_same.
Qed.

Lemma patchItems_writes (items : list CachedCertificate) (s : st W)
    (obj base : CachedCertificate) :
  In (StatusPatchCall obj base) (trace (snd (patchItems r items s))) ->
  In (StatusPatchCall obj base) (trace s)
  \/ obj = setState base CachedCertificateStatePending.
Proof.
  destruct (patchItems_run items s) as (k & _ & -> & _).
  rewrite in_app_iff, in_map_iff. intros [H | (c & Hc & _)]; [now left | right].
  unfold patchCall in Hc. now injection Hc as <- <-.
Qed.

Lemma ReconcileUpstreamSecret_writes (req : NamespacedName) (w : W)
    (obj base : CachedCertificate) :
  In (StatusPatchCall obj base)
     (trace (snd (ReconcileUpstreamSecret r req (St w [])))) ->
  State (Status obj) = CachedCertificateStatePending.
Proof.
  unfold ReconcileUpstreamSecret, bindR, invoke, retR. cbn [world trace].
  destruct (GetSecret _ _ _) as [[e | secret] w1].
  - destruct (IsNotFound e); simpl; intuition discriminate.
  - destruct (String.eqb _ _); [simpl; intuition discriminate |].
    cbn [world trace]. destruct (ListCachedCertificates _ _ _ _) as [[e | items] w2].
    + simpl; intuition discriminate.
    + intros H. apply patchItems_writes in H as [H | ->]; [| reflexivity].
      simpl in H. intuition discriminate.
Qed.

End fan_out.

(* ===================================================================== *)
(** ** The states written *)
(* ===================================================================== *)

Section status_values.

Context {W : Type} (r : CachedCertificateReconciler W)
        (u : UpstreamSecretReconciler W).

Lemma Reconcile_written_states (req : NamespacedName) (w : W)
    (at_site : site) (obj : CachedCertificate) :
  In (StatusUpdateCall at_site obj) (trace (snd (Reconcile r req (St w [])))) ->
  enumeratedState (State (Status obj))
  \/ ((at_site = AfterUpstreamCreate \/ at_site = UpstreamReadyWrite)
      /\ exists cc0 w1,
           GetCachedCertificate (client_ r) req w = (inr cc0, w1)
           /\ State (Status obj) = State (Status cc0)).
Proof.
  intros H.
  destruct (Reconcile_status_writes r req w at_site obj H) as (cc0 & w1 & HG & Hw).
  destruct (prepared_status r cc0) as (Hst & _ & _ & _).
  unfold enumeratedState.
  destruct at_site; cbn [writtenAt] in Hw.
  - right. split; [now left |]. exists cc0, w1. subst obj. now split.
  - left. left. now subst obj.
  - left. left. now destruct Hw as [-> _].
  - left. right. right. now subst obj.
  - right. split; [now right |]. exists cc0, w1. destruct Hw as [-> _]. now split.
  - left. right. right. now destruct Hw as [-> | ->].
  - left. right. left. now destruct Hw as [[-> _] | ->].
Qed.

(** Once the state of a Request is one of the three values, a pass of the
    request reconciler keeps it so. *)
Lemma enumerated_state_preserved (req : NamespacedName) (w w1 : W)
    (cc0 : CachedCertificate) (at_site : site) (obj : CachedCertificate) :
  GetCachedCertificate (client_ r) req w = (inr cc0, w1) ->
  enumeratedState (State (Status cc0)) ->
  In (StatusUpdateCall at_site obj) (trace (snd (Reconcile r req (St w [])))) ->
  enumeratedState (State (Status obj)).
Proof.
  intros HG Hen H.
  destruct (Reconcile_written_states req w at_site obj H)
    as [He | (_ & cc & w' & HG' & Hs)]; [exact He |].
  rewrite HG in HG'. injection HG' as <- <-. now rewrite Hs.
Qed.

(** C8 (amended). Every status write that assigns the state assigns
    Pending, Synced or Error. The write after the creation of the upstream
    Certificate and the upstreamReady write leave the state as the Request
    was fetched with it. So a status written by the request reconciler
    carries one of the three values or the state the Request was fetched
    with; a status patched by the fan-out reconciler carries Pending. *)
Theorem persisted_state_values (req : NamespacedName) (w : W) :
  (forall (at_site : site) (obj : CachedCertificate),
      In (StatusUpdateCall at_site obj) (trace (snd (Reconcile r req (St w [])))) ->
      enumeratedState (State (Status obj))
      \/ ((at_site = AfterUpstreamCreate \/ at_site = UpstreamReadyWrite)
          /\ exists cc0 w1,
               GetCachedCertificate (client_ r) req w = (inr cc0, w1)
               /\ State (Status obj) = State (Status cc0)))
  /\ (forall obj base : CachedCertificate,
        In (StatusPatchCall obj base)
           (trace (snd (ReconcileUpstreamSecret u req (St w [])))) ->
        State (Status obj) = CachedCertificateStatePending).
Proof.
  split.
  - intros at_site obj. apply Reconcile_written_states.
  - intros obj base. apply ReconcileUpstreamSecret_writes.
Qed.

End status_values.

(* ===================================================================== *)
(** ** Passes on concrete clusters *)
(* ===================================================================== *)

Section concrete.

Let r := requestReconciler testing.
Let u := fanOutReconciler testing.

Lemma not_sameNameSet_example :
  ~ sameNameSet ["dnsset-1.example.com"] (DNSNames (Spec staleRequest)).
Proof.
  intros H. destruct (H "dnsset-1.example.com") as [H1 _].
  specialize (H1 ltac:(left)). cbn in H1.
  apply list_elem_of_singleton in H1. discriminate.
Qed.

Lemma stale_binding_resets_witness :
  GetCachedCertificate fakeClient (keyIn "cachedcertificate-dnsnameschange") staleCluster
    = (inr staleRequest, staleCluster)
  /\ ~ sameNameSet ["dnsset-1.example.com"] (DNSNames (Spec staleRequest))
  /\ Status staleWritten = statusOf false None "Pending"
  /\ trace (snd (runRequest testing (keyIn "cachedcertificate-dnsnameschange") staleCluster))
     = [GetCachedCertificateCall (keyIn "cachedcertificate-dnsnameschange");
        GetCertificateCall (keyIn "cc-dnsset-1.example.com");
        StatusUpdateCall StaleBinding staleWritten].
Proof.
  assert (HG : GetCachedCertificate (client_ r)
                 (keyIn "cachedcertificate-dnsnameschange") staleCluster
               = (inr staleRequest, staleCluster)) by (vm_compute; reflexivity).
  assert (HC : GetCertificate (client_ r) (upstreamKey (prepared r staleRequest))
                 staleCluster = (inr staleCertificate, staleCluster))
    by (vm_compute; reflexivity).
  pose proof (stale_binding_resets r _ _ _ _ _ _ _ [] HG HC eq_refl
                not_sameNameSet_example) as (Hs & Ht & _).
  split; [exact HG | split; [exact not_sameNameSet_example | split; [exact Hs |]]].
  unfold runRequest. fold r. rewrite Ht. vm_compute. reflexivity.
Defined.

Lemma foreign_secret_refused_witness :
  genSecretForSync (Some conflictPrepared) (Some conflictCertificate)
      (Some (upstreamSecretOf "cc-conflict.example.com"))
    = (Some conflictSecret, None)
  /\ validateSecret (Some conflictSecret) = None
  /\ GetSecret fakeClient (targetKey conflictSecret) conflictCluster
     = (inr foreignSecret, conflictCluster)
  /\ mapLookup (Labels (secret_ObjectMeta foreignSecret)) SyncedLabelKey = None
  /\ upsertTargetSecret r conflictSecret (St conflictCluster [])
     = (Some refusal, St conflictCluster [GetSecretCall (targetKey conflictSecret)])
  /\ trace (snd (Reconcile_sync r conflictPrepared conflictCertificate
                   (upstreamSecretOf "cc-conflict.example.com") (St conflictCluster [])))
     = [GetSecretCall (targetKey conflictSecret);
        StatusUpdateCall UpsertFailed
          (setState conflictPrepared CachedCertificateStateError)].
Proof.
  assert (H1 : genSecretForSync (Some conflictPrepared) (Some conflictCertificate)
                 (Some (upstreamSecretOf "cc-conflict.example.com"))
               = (Some conflictSecret, None)) by (vm_compute; reflexivity).
  assert (H2 : validateSecret (Some conflictSecret) = None) by (vm_compute; reflexivity).
  assert (H3 : GetSecret (client_ r) (targetKey conflictSecret)
                 (world (St conflictCluster []))
               = (inr foreignSecret, conflictCluster)) by (vm_compute; reflexivity).
  assert (H4 : mapLookup (Labels (secret_ObjectMeta foreignSecret)) SyncedLabelKey = None)
    by (vm_compute; reflexivity).
  pose proof (foreign_secret_refused r _ _ _ _ _ _ _ H1 H2 H3 H4) as (Hup & Hsync & _).
  split; [exact H1 | split; [exact H2 | split; [exact H3 | split; [exact H4 |]]]].
  split; [exact Hup |]. rewrite Hsync. reflexivity.
Defined.

(** The pass of the controller test "should refuse to update a secret it did
    not make": the Request ends in state Error, the foreign secret is the
    one that was there. *)
Lemma pass_refuses_foreign_secret :
  trace (snd (runRequest testing (keyIn "new-cachedcertificate-conflict") conflictCluster))
  = [GetCachedCertificateCall (keyIn "new-cachedcertificate-conflict");
     GetCertificateCall (keyIn "cc-conflict.example.com");
     GetSecretCall (keyIn "cc-conflict.example.com");
     GetSecretCall (keyIn "new-cachedcertificate-conflict");
     StatusUpdateCall UpsertFailed
       (setState conflictPrepared CachedCertificateStateError)]
  /\ secrets (world (snd (runRequest testing (keyIn "new-cachedcertificate-conflict")
                            conflictCluster)))
     = secrets conflictCluster
  /\ (State ∘ Status) <$>
       cachedCertificates
         (world (snd (runRequest testing (keyIn "new-cachedcertificate-conflict")
                        conflictCluster)))
       !! (testing, "new-cachedcertificate-conflict")
     = Some CachedCertificateStateError.
Proof. repeat split; vm_compute; reflexivity. Qed.

Lemma upsertTargetSecret_marker_presence_witness :
  GetSecret fakeClient (targetKey conflictSecret) falseMarkedCluster
    = (inr falseMarkedSecret, falseMarkedCluster)
  /\ mapLookup (Labels (secret_ObjectMeta falseMarkedSecret)) SyncedLabelKey = Some "false"
  /\ trace (snd (upsertTargetSecret r conflictSecret (St falseMarkedCluster [])))
     = [GetSecretCall (targetKey conflictSecret); UpdateSecretCall conflictSecret]
  /\ secrets (world (snd (upsertTargetSecret r conflictSecret (St falseMarkedCluster []))))
       !! (testing, "new-cachedcertificate-conflict")
     = Some conflictSecret
  /\ namespaceAndLabelsPredicate testing falseMarkedUpstream = true.
Proof.
  assert (H1 : GetSecret (client_ r) (targetKey conflictSecret)
                 (world (St falseMarkedCluster []))
               = (inr falseMarkedSecret, falseMarkedCluster)) by (vm_compute; reflexivity).
  assert (H2 : mapLookup (Labels (secret_ObjectMeta falseMarkedSecret)) SyncedLabelKey
               = Some "false") by (vm_compute; reflexivity).
  pose proof (upsertTargetSecret_marker_presence r _ _ _ _ H1) as (Hp & _ & Hf).
  split; [exact H1 | split; [exact H2 |]].
  rewrite (Hp _ H2). split; [reflexivity | split; [vm_compute; reflexivity |]].
  apply Hf. repeat split; vm_compute; discriminate.
Defined.

Lemma fan_out_patches_each_dependent_witness :
  GetSecret fakeClient (keyIn "cc-example.com") pendingCluster
    = (inr (upstreamSecretOf "cc-example.com"), pendingCluster)
  /\ ListCachedCertificates fakeClient certNameIndexKey "cc-example.com" pendingCluster
     = (inr [pendingRequest], pendingCluster)
  /\ patchCall pendingRequest = StatusPatchCall pendingRequest pendingRequest
  /\ exists k,
       k <= 1
       /\ trace (snd (runFanOut testing (keyIn "cc-example.com") pendingCluster))
          = [GetSecretCall (keyIn "cc-example.com");
             ListCachedCertificatesCall certNameIndexKey "cc-example.com"]
            ++ map patchCall (take k [pendingRequest]).
Proof.
  assert (H1 : GetSecret (us_client u) (keyIn "cc-example.com")
                 (world (St pendingCluster []))
               = (inr (upstreamSecretOf "cc-example.com"), pendingCluster))
    by (vm_compute; reflexivity).
  assert (H2 : mapIndex (Annotations (secret_ObjectMeta (upstreamSecretOf "cc-example.com")))
                 CertificateNameAnnotationKey <> "") by (vm_compute; discriminate).
  assert (H3 : ListCachedCertificates (us_client u) (CertNameIndexKey u)
                 (mapIndex (Annotations (secret_ObjectMeta (upstreamSecretOf "cc-example.com")))
                    CertificateNameAnnotationKey) pendingCluster
               = (inr [pendingRequest], pendingCluster)) by (vm_compute; reflexivity).
  pose proof (fan_out_patches_each_dependent u _ _ _ _ _ _ H1 H2 H3)
    as ((k & Hk & Ht & _) & Hp).
  split; [exact H1 | split; [exact H3 | split; [now apply Hp |]]].
  exists k. split; [exact Hk |]. exact Ht.
Defined.

(** C5 as stated fails: a dependent that is already Pending is patched. *)
Lemma fan_out_counterexample :
  State (Status pendingRequest) = CachedCertificateStatePending
  /\ In (StatusPatchCall pendingRequest pendingRequest)
        (trace (snd (runFanOut testing (keyIn "cc-example.com") pendingCluster))).
Proof. split; [reflexivity | pick_call]. Qed.

Lemma guarded_status_writes_differ_witness :
  In (StatusUpdateCall SecretNotFound waitingWritten)
     (trace (snd (runRequest testing (keyIn "synced") waitingCluster)))
  /\ exists cc0 w1,
       GetCachedCertificate fakeClient (keyIn "synced") waitingCluster = (inr cc0, w1)
       /\ Status waitingWritten <> Status cc0
       /\ (SecretNotFound = SecretNotFound ->
           State (Status cc0) <> CachedCertificateStatePending
           \/ UpstreamReady (Status cc0) = true)
       /\ (SecretNotFound = UpstreamReadyWrite -> UpstreamReady (Status cc0) = false).
Proof.
  assert (H : In (StatusUpdateCall SecretNotFound waitingWritten)
                 (trace (snd (Reconcile r (keyIn "synced") (St waitingCluster [])))))
    by pick_call.
  split; [exact H |].
  exact (guarded_status_writes_differ r _ _ _ _ H (or_introl eq_refl)).
Defined.

(** C7 as stated fails: the final Synced write of a pass on a Request that
    is already synced carries the status the Request was fetched with. *)
Lemma final_synced_write_counterexample :
  GetCachedCertificate fakeClient (keyIn "synced") syncedCluster
    = (inr syncedRequest, syncedCluster)
  /\ In (StatusUpdateCall FinalSynced syncedWritten)
        (trace (snd (runRequest testing (keyIn "synced") syncedCluster)))
  /\ Status syncedWritten = Status syncedRequest.
Proof. split; [vm_compute; reflexivity | split; [pick_call | reflexivity]]. Qed.

Lemma persisted_state_values_witness :
  In (StatusUpdateCall SecretNotFound waitingWritten)
     (trace (snd (runRequest testing (keyIn "synced") waitingCluster)))
  /\ (enumeratedState (State (Status waitingWritten))
      \/ ((SecretNotFound = AfterUpstreamCreate \/ SecretNotFound = UpstreamReadyWrite)
          /\ exists cc0 w1,
               GetCachedCertificate fakeClient (keyIn "synced") waitingCluster
                 = (inr cc0, w1)
               /\ State (Status waitingWritten) = State (Status cc0))).
Proof.
  assert (H : In (StatusUpdateCall SecretNotFound waitingWritten)
                 (trace (snd (Reconcile r (keyIn "synced") (St waitingCluster [])))))
    by pick_call.
  split; [exact H |].
  exact (proj1 (persisted_state_values r u (keyIn "synced") waitingCluster) _ _ H).
Defined.

(** C8 as stated fails: the first pass on a new Request writes its status
    with the empty state, and that is what is stored afterwards. *)
Lemma persisted_state_counterexample :
  In (StatusUpdateCall AfterUpstreamCreate freshWritten)
     (trace (snd (runRequest testing (keyIn "new-cachedcertificate") freshCluster)))
  /\ State (Status freshWritten) = ""
  /\ ~ enumeratedState (State (Status freshWritten))
  /\ (State ∘ Status) <$>
       cachedCertificates
         (world (snd (runRequest testing (keyIn "new-cachedcertificate") freshCluster)))
       !! (testing, "new-cachedcertificate")
     = Some "".
Proof.
  split; [pick_call | split; [reflexivity | split]].
  - intros [H | [H | H]]; discriminate.
  - vm_compute. reflexivity.
Qed.

End concrete.

(* ===================================================================== *)
(** ** More on the name deriver and the hash *)
(* ===================================================================== *)

Section more_deriver.

Lemma digit_isDigit (d : Z) : (0 <= d < 10)%Z -> isDigit (strconv.digit d) = true.
Proof.
  intros Hd.
  assert (H : (d = 0 \/ d = 1 \/ d = 2 \/ d = 3 \/ d = 4 \/ d = 5 \/ d = 6 \/
               d = 7 \/ d = 8 \/ d = 9)%Z) by lia.
  repeat (destruct H as [-> | H]; [reflexivity |]). subst d. reflexivity.
Qed.

Lemma formatBits_allDigits (fuel : nat) (u : Z) (acc : string) :
  (0 <= u)%Z -> allDigits acc = true ->
  allDigits (strconv.formatBits fuel u acc) = true.
Proof.
  revert u acc. induction fuel as [| fuel IH]; intros u acc Hu Hacc; simpl;
    [exact Hacc |].
  destruct (Z.ltb_spec u 10) as [Hlt | Hge].
  - simpl. rewrite Hacc, digit_isDigit by lia. reflexivity.
  - apply IH.
    + apply Z.div_pos; lia.
    + simpl. rewrite Hacc, digit_isDigit; [reflexivity |].
      apply Z.mod_pos_bound. lia.
Qed.

Lemma formatBits_grows (fuel : nat) (u : Z) (acc : string) :
  String.length acc <= String.length (strconv.formatBits fuel u acc).
Proof.
  revert u acc. induction fuel as [| fuel IH]; intros u acc; simpl; [lia |].
  destruct (u <? 10)%Z; simpl; [lia |].
  specialize (IH (u / 10)%Z (String (strconv.digit (u mod 10)%Z) acc)).
  simpl in IH. lia.
Qed.

Lemma formatBits_nonempty (fuel : nat) (u : Z) (acc : string) :
  1 + String.length acc <= String.length (strconv.formatBits (S fuel) u acc).
Proof.
  cbn [strconv.formatBits]. destruct (u <? 10)%Z; [simpl; lia |].
  pose proof (formatBits_grows fuel (u / 10)%Z
                (String (strconv.digit (u mod 10)%Z) acc)) as H.
  cbn [String.length] in H. lia.
Qed.

Lemma allDigits_hasByte (c : ascii) (s : string) :
  isDigit c = false -> allDigits s = true -> hasByte c s = false.
Proof.
  intros Hc. induction s as [| d s IH]; simpl; [reflexivity |].
  intros H. apply andb_true_iff in H as [Hd Hs]. rewrite (IH Hs), orb_false_r.
  apply Ascii.eqb_neq. intros ->. congruence.
Qed.

Lemma genHash_allDigits (s : string) : allDigits (genHash s) = true.
Proof.
  unfold genHash, strconv.FormatUint, fnv.Sum64.
  apply formatBits_allDigits; [| reflexivity].
  apply (fnv_Write_range s fnv.New64a).
  unfold fnv.New64a, fnv.offset64, fnv.two64. lia.
Qed.

(** X1. The hash suffix [genHash] renders is between 1 and 20 decimal
    digits, and it reads back as the 64-bit FNV-1a value of the string: the
    rendering loses nothing of the hash. *)
Theorem genHash_decimal (s : string) :
  1 <= String.length (genHash s) <= 20
  /\ allDigits (genHash s) = true
  /\ strconv.ParseUint (genHash s) = fnv.Sum64 (fnv.Write fnv.New64a s)
  /\ (0 <= fnv.Sum64 (fnv.Write fnv.New64a s) < 2 ^ 64)%Z.
Proof.
  assert (Hr : (0 <= fnv.Write fnv.New64a s < fnv.two64)%Z).
  { apply fnv_Write_range. unfold fnv.New64a, fnv.offset64, fnv.two64. lia. }
  split; [split; [| apply genHash_length] | split; [apply genHash_allDigits | split]].
  - unfold genHash, strconv.FormatUint.
    pose proof (formatBits_nonempty 19 (fnv.Sum64 (fnv.Write fnv.New64a s)) "") as H.
    cbn [String.length] in H. lia.
  - unfold genHash. now apply FormatUint_parse.
  - exact Hr.
Qed.

Lemma nameOfSorted_exact_length (names : list string) :
  String.length (nameOfSorted names) =
    if Nat.ltb 253 (joinedLength 1 names)
    then 128 + String.length
                 (genHash (strings.ReplaceAll (strings.Join names "-") star ex))
    else 3 + joinedLength 1 names.
Proof.
  unfold nameOfSorted, maxSecretNameLength, hashPrefixLength. cbv zeta.
  rewrite length_append, !ReplaceAll_length, Join_length.
  cbn [String.length].
  destruct (Nat.ltb_spec 253 (joinedLength 1 names)) as [Hlong | Hshort].
  - rewrite length_append, length_substring0, ReplaceAll_length, Join_length.
    cbn [String.length]. lia.
  - rewrite ReplaceAll_length, Join_length. reflexivity.
Qed.

(** X2. The exact length of a derived name. When the names joined with [-]
    take at most 253 characters, the name is three characters longer than
    the joined string, so up to 256 characters long; when they take more,
    the name is 128 characters followed by the hash digits, between 129 and
    148 characters. *)
Theorem derived_name_exact_length (m : mem) (s : slice) :
  valid m s -> s_len s <> 0 ->
  (joinedLength 1 (load m s) <= 253 ->
   String.length (fst (getUpstreamCertificateName s m))
   = joinedLength 1 (load m s) + 3)
  /\ (253 < joinedLength 1 (load m s) ->
      String.length (fst (getUpstreamCertificateName s m))
      = 128 + String.length (genHash (joinedNames (load m s)))
      /\ 129 <= String.length (fst (getUpstreamCertificateName s m)) <= 148).
Proof.
  intros Hv Hn. rewrite getUpstreamCertificateName_run by assumption. cbn [fst].
  rewrite nameOfSorted_exact_length.
  rewrite (joinedLength_perm 1 (merge_sort string_le (load m s)) (load m s))
    by apply merge_sort_Permutation.
  split; intros Hl.
  - destruct (Nat.ltb_spec 253 (joinedLength 1 (load m s))); lia.
  - destruct (Nat.ltb_spec 253 (joinedLength 1 (load m s))); [| lia].
    fold (joinedNames (load m s)).
    destruct (genHash_decimal (joinedNames (load m s))) as (Hlen & _). lia.
Qed.

Lemma hasByte_removed (c new : ascii) (s : string) :
  new <> c -> hasByte c (strings.ReplaceAll s c new) = false.
Proof.
  intros Hn. induction s as [| d s IH]; simpl; [reflexivity |].
  rewrite IH, orb_false_r.
  destruct (Ascii.eqb_spec d c) as [-> | Hd]; now apply Ascii.eqb_neq.
Qed.

Lemma hasByte_substring0 (c : ascii) (n : nat) (s : string) :
  hasByte c s = false -> hasByte c (String.substring 0 n s) = false.
Proof.
  revert s. induction n as [| n IH]; intros [| d s]; simpl; try reflexivity.
  intros H. apply orb_false_elim in H as [H1 H2]. now rewrite H1, IH.
Qed.

Lemma nameOfSorted_charset (names : list string) :
  hasByte star (nameOfSorted names) = false
  /\ hasByte backslash (nameOfSorted names) = false.
Proof.
  unfold nameOfSorted. cbv zeta.
  set (joined := strings.ReplaceAll (strings.Join names "-") star ex).
  assert (Hj : hasByte star joined = false) by (apply hasByte_removed; discriminate).
  assert (Hb : hasByte star
                 (if Nat.ltb maxSecretNameLength (String.length joined)
                  then String.substring 0 (hashPrefixLength - 3) joined +:+ genHash joined
                  else joined) = false).
  { destruct (Nat.ltb _ _); [| exact Hj].
    rewrite hasByte_append, hasByte_substring0 by exact Hj.
    apply allDigits_hasByte; [reflexivity | apply genHash_allDigits]. }
  split.
  - rewrite hasByte_append. simpl. apply hasByte_ReplaceAll; [discriminate | exact Hb].
  - rewrite hasByte_append. simpl. apply hasByte_removed. discriminate.
Qed.

(** X3. A derived name holds no wildcard and no backslash, whatever the
    names given: both are replaced before the name is returned, and the
    hash suffix is made of digits. *)
Theorem derived_name_charset (m : mem) (s : slice) :
  valid m s ->
  hasByte star (fst (getUpstreamCertificateName s m)) = false
  /\ hasByte backslash (fst (getUpstreamCertificateName s m)) = false.
Proof.
  intros Hv. destruct (Nat.eq_dec (s_len s) 0) as [E | N].
  - rewrite getUpstreamCertificateName_empty by exact E. split; reflexivity.
  - rewrite getUpstreamCertificateName_run by assumption. apply nameOfSorted_charset.
Qed.

Lemma merge_sort_singleton (a : string) : merge_sort string_le [a] = [a].
Proof. reflexivity. Qed.

Lemma ReplaceAll_idempotent (s : string) (old new : ascii) :
  new <> old ->
  strings.ReplaceAll (strings.ReplaceAll s old new) old new
  = strings.ReplaceAll s old new.
Proof. intros H. apply ReplaceAll_absent. now apply hasByte_removed. Qed.

(** X4. The derived name does not tell name sets apart. A sequence of
    several names gets the name of the single name made of their sorted
    join; and a single name gets the name of the same name with its
    wildcards written as [x]. Requests for such different DNS names are
    bound to the same upstream Certificate name. *)
Theorem derived_name_collisions (a : string) (rest : list string) :
  upstreamCertificateName (a :: rest)
  = upstreamCertificateName [strings.Join (merge_sort string_le (a :: rest)) "-"]
  /\ upstreamCertificateName [a]
     = upstreamCertificateName [strings.ReplaceAll a star ex].
Proof.
  rewrite !upstreamCertificateName_cons, !merge_sort_singleton. split.
  - generalize (merge_sort string_le (a :: rest)). intros names.
    unfold nameOfSorted. cbv zeta. reflexivity.
  - unfold nameOfSorted. cbv zeta.
    change (strings.Join [strings.ReplaceAll a star ex] "-")
      with (strings.ReplaceAll a star ex).
    change (strings.Join [a] "-") with a.
    rewrite ReplaceAll_idempotent by discriminate. reflexivity.
Qed.

Lemma derived_name_exact_length_witness :
  valid twoNamesMem twoNames /\ s_len twoNames <> 0
  /\ joinedLength 1 (load twoNamesMem twoNames) <= 253
  /\ String.length (fst (getUpstreamCertificateName twoNames twoNamesMem))
     = joinedLength 1 (load twoNamesMem twoNames) + 3.
Proof.
  assert (Hv : valid twoNamesMem twoNames) by (vm_compute; lia).
  assert (Hn : s_len twoNames <> 0) by (vm_compute; lia).
  assert (Hl : joinedLength 1 (load twoNamesMem twoNames) <= 253) by (vm_compute; lia).
  pose proof (derived_name_exact_length twoNamesMem twoNames Hv Hn) as (H & _).
  split; [exact Hv | split; [exact Hn | split; [exact Hl | exact (H Hl)]]].
Defined.

Lemma derived_name_charset_witness :
  valid twoNamesMem twoNames
  /\ hasByte star (fst (getUpstreamCertificateName twoNames twoNamesMem)) = false
  /\ hasByte backslash (fst (getUpstreamCertificateName twoNames twoNamesMem)) = false.
Proof.
  assert (Hv : valid twoNamesMem twoNames) by (vm_compute; lia).
  split; [exact Hv | exact (derived_name_charset twoNamesMem twoNames Hv)].
Defined.

End more_deriver.

(* ===================================================================== *)
(** ** More on the comparator, the validator and the materializer *)
(* ===================================================================== *)

Section more_secrets.

(** X5. [slicesEqualAfterSort] compares two sequences as multisets: it holds
    exactly when one is a permutation of the other, so duplicates count; and
    it gives the same answer with its arguments exchanged. *)
Theorem slicesEqualAfterSort_multiset (x y : list string) :
  (slicesEqualAfterSort x y = true <-> x ≡ₚ y)
  /\ slicesEqualAfterSort x y = slicesEqualAfterSort y x.
Proof.
  split; [apply slicesEqualAfterSort_spec |].
  destruct (slicesEqualAfterSort x y) eqn:E1, (slicesEqualAfterSort y x) eqn:E2;
    try reflexivity.
  - apply slicesEqualAfterSort_spec in E1. symmetry in E1.
    apply slicesEqualAfterSort_spec in E1. congruence.
  - apply slicesEqualAfterSort_spec in E2. symmetry in E2.
    apply slicesEqualAfterSort_spec in E2. congruence.
Qed.

(** X6. The secret the materializer builds is valid exactly when the data of
    the upstream secret has entries for "tls.crt" and "tls.key", whatever
    their values, empty ones included; validation of the built secret gives
    what validation of the upstream secret gives. No other key, "ca.crt"
    among them, is looked at. *)
Theorem materialized_secret_validity (cachedCert : CachedCertificate)
    (upstreamCert : Unstructured) (upstreamSecret : Secret) :
  validateSecret
    (fst (genSecretForSync (Some cachedCert) (Some upstreamCert) (Some upstreamSecret)))
  = validateSecret (Some upstreamSecret)
  /\ (validateSecret (Some upstreamSecret) = None <->
      (exists crt, mapLookup (secret_Data upstreamSecret) "tls.crt" = Some crt)
      /\ (exists key, mapLookup (secret_Data upstreamSecret) "tls.key" = Some key)).
Proof.
  split; [reflexivity |].
  unfold validateSecret, hasKey.
  destruct (mapLookup (secret_Data upstreamSecret) "tls.crt") as [crt |];
    destruct (mapLookup (secret_Data upstreamSecret) "tls.key") as [key |];
    cbn [negb]; split; try discriminate; eauto.
  - intros [_ [k Hk]]. discriminate.
  - intros [[c Hc] _]. discriminate.
  - intros [[c Hc] _]. discriminate.
Qed.

(** X7. The labels and annotations of the built secret are those of the
    upstream secret with two entries overlaid: every label but the marker
    label and every annotation but the source annotation is carried over
    unchanged, and the two entries are set whatever the upstream secret had
    under their keys. *)
Theorem genSecretForSync_overlay (cachedCert : CachedCertificate)
    (upstreamCert : Unstructured) (upstreamSecret : Secret) :
  exists secret,
    genSecretForSync (Some cachedCert) (Some upstreamCert) (Some upstreamSecret)
      = (Some secret, None)
    /\ (forall k : string,
          mapLookup (Labels (secret_ObjectMeta secret)) k =
            if decide (k = SyncedLabelKey) then Some "true"
            else mapLookup (Labels (secret_ObjectMeta upstreamSecret)) k)
    /\ (forall k : string,
          mapLookup (Annotations (secret_ObjectMeta secret)) k =
            if decide (k = SourceAnnotationKey)
            then Some (Namespace (cc_ObjectMeta cachedCert) +:+ "/"
                       +:+ Name (cc_ObjectMeta cachedCert))
            else mapLookup (Annotations (secret_ObjectMeta upstreamSecret)) k).
Proof.
  eexists. split; [reflexivity |].
  cbn [secret_ObjectMeta Labels Annotations mapLookup]. unfold mapAssign.
  split; intros k.
  - destruct (decide (k = SyncedLabelKey)) as [-> | Hk].
    + apply lookup_insert_eq.
    + rewrite lookup_insert_ne by congruence.
      destruct (Labels (secret_ObjectMeta upstreamSecret)); [reflexivity |].
      apply lookup_empty.
  - destruct (decide (k = SourceAnnotationKey)) as [-> | Hk].
    + apply lookup_insert_eq.
    + rewrite lookup_insert_ne by congruence.
      destruct (Annotations (secret_ObjectMeta upstreamSecret)); [reflexivity |].
      apply lookup_empty.
Qed.

End more_secrets.

(* ===================================================================== *)
(** ** More on the upsert and on the branches of a pass *)
(* ===================================================================== *)

Section more_reconcile.

Context {W : Type} (r : CachedCertificateReconciler W).

(** X8. When the read of the target secret fails, the upsert creates the
    secret if the failure is NotFound and returns what the create returns;
    on any other failure it returns that failure and writes nothing. *)
Theorem upsertTargetSecret_read_failure (secret : Secret) (s : st W)
    (err : error) (w1 : W) :
  GetSecret (client_ r) (targetKey secret) (world s) = (inl err, w1) ->
  upsertTargetSecret r secret s =
    if IsNotFound err
    then (fst (CreateSecret (client_ r) secret w1),
          St (snd (CreateSecret (client_ r) secret w1))
             (trace s ++ [GetSecretCall (targetKey secret); CreateSecretCall secret]))
    else (Some err, St w1 (trace s ++ [GetSecretCall (targetKey secret)])).
Proof.
  intros HG. unfold upsertTargetSecret, bindR, invoke, retR.
  fold (targetKey secret). rewrite HG.
  destruct (IsNotFound err); cbn [world trace]; [| reflexivity].
  destruct (CreateSecret _ _ _). cbn [fst snd]. now rewrite <- app_assoc.
Qed.

(** X9. Whatever the client answers, the upsert reads the target secret
    once and then issues at most one write, a create or an update of the
    very secret it was given; when it issues none, it returns an error. *)
Theorem upsertTargetSecret_writes_once (secret : Secret) (s : st W) :
  exists tail,
    trace (snd (upsertTargetSecret r secret s))
    = trace s ++ GetSecretCall (targetKey secret) :: tail
    /\ ((tail = [] /\ exists e, fst (upsertTargetSecret r secret s) = Some e)
        \/ tail = [CreateSecretCall secret]
        \/ tail = [UpdateSecretCall secret]).
Proof.
  destruct (GetSecret (client_ r) (targetKey secret) (world s))
    as [[err | existing] w1] eqn:HG.
  - unfold upsertTargetSecret, bindR, invoke, retR.
    fold (targetKey secret). rewrite HG.
    destruct (IsNotFound err); cbn [world trace].
    + destruct (CreateSecret _ _ _). cbn [fst snd trace]. rewrite <- app_assoc.
      eexists. split; [reflexivity |]. right. now left.
    + cbn [fst snd trace]. eexists. split; [reflexivity |].
      left. split; [reflexivity | eauto].
  - rewrite (upsertTargetSecret_existing r secret existing s w1 HG).
    destruct (hasKey _ _); cbn [fst snd trace].
    + eexists. split; [reflexivity |]. right. now right.
    + eexists. split; [reflexivity |]. left. split; [reflexivity | eauto].
Qed.

Lemma prepared_boundRef (cc0 : CachedCertificate) :
  UpstreamRef (Status (prepared r cc0)) = Some (boundRef r cc0).
Proof.
  destruct cc0 as [tm om [sn ir dns] [rd rf st]].
  unfold prepared, boundRef, derivedRef, setSecretName. cbn.
  destruct (String.eqb sn ""); destruct rf as [ref |]; reflexivity.
Qed.

Lemma prepared_spec (cc0 : CachedCertificate) :
  SecretName (Spec (prepared r cc0)) = targetName cc0
  /\ IssuerRef_ (Spec (prepared r cc0)) = IssuerRef_ (Spec cc0)
  /\ cc_ObjectMeta (prepared r cc0) = cc_ObjectMeta cc0
  /\ cc_TypeMeta (prepared r cc0) = cc_TypeMeta cc0.
Proof.
  destruct cc0 as [tm om [sn ir dns] [rd rf st]].
  unfold prepared, targetName, setSecretName. cbn.
  destruct (String.eqb sn ""); destruct rf; repeat split.
Qed.

(** X10. When the Request cannot be read, the pass ends after that one
    read: without error and without requeue if the Request is not found,
    with the read's error otherwise. *)
Theorem Reconcile_request_unavailable (req : NamespacedName) (err : error)
    (w w1 : W) (tr : list call) :
  GetCachedCertificate (client_ r) req w = (inl err, w1) ->
  Reconcile r req (St w tr) =
    ((noResult, if IsNotFound err then None else Some err),
     St w1 (tr ++ [GetCachedCertificateCall req])).
Proof.
  intros HG. unfold Reconcile, bindR, invoke, retR. cbn [world trace]. rewrite HG.
  now destruct (IsNotFound err).
Qed.

(** X11. When the upstream Certificate is not found, the pass creates it:
    named by the reference the pass works with, in that reference's
    namespace, its dnsNames and issuerRef those of the Request, its
    secretName its own name. If the create fails, with whatever error, the
    pass returns that error and writes no status; otherwise it writes the
    Request's status as prepared and asks for an immediate requeue. On any
    other failure of the read the pass returns it and writes nothing. *)
Theorem Reconcile_creates_upstream (req : NamespacedName) (cc0 : CachedCertificate)
    (err : error) (w w1 w2 : W) (tr : list call) :
  GetCachedCertificate (client_ r) req w = (inr cc0, w1) ->
  GetCertificate (client_ r) (upstreamKey (prepared r cc0)) w1 = (inl err, w2) ->
  let created := upstreamCertificateFor cc0 (boundRef r cc0) in
  let create := CreateCertificate (client_ r) created w2 in
  let update := StatusUpdate (client_ r) (prepared r cc0) (snd create) in
  Reconcile r req (St w tr) =
    if IsNotFound err then
      match fst create with
      | Some e =>
          ((noResult, Some e),
           St (snd create)
              (tr ++ firstReads r req cc0 ++ [CreateCertificateCall created]))
      | None =>
          (match fst update with
           | Some e => (noResult, Some e)
           | None => ({| Requeue := true; RequeueAfter := 0 |}, None)
           end,
           St (snd update)
              (tr ++ firstReads r req cc0
                  ++ [CreateCertificateCall created;
                      StatusUpdateCall AfterUpstreamCreate (prepared r cc0)]))
      end
    else ((noResult, Some err), St w2 (tr ++ firstReads r req cc0)).
Proof.
  intros HG HC created create update. subst update create created.
  pose proof (prepared_boundRef cc0) as Href.
  destruct (prepared_status r cc0) as (_ & _ & Hdns & _).
  destruct (prepared_spec cc0) as (_ & Hiss & _ & _).
  unfold firstReads, upstreamCertificateFor.
  start_pass r cc0 HG Href. rewrite HC.
  destruct (IsNotFound err); [| unfold retR; now rewrite <- !app_assoc].
  unfold createUpstreamCertificate, invoke. rewrite Href. cbn [world trace].
  rewrite Hdns, Hiss.
  destruct (CreateCertificate _ _ _) as [[e |] w3]; cbn [fst snd].
  - unfold retR. now rewrite <- !app_assoc.
  - unfold statusUpdate, invoke, retR. cbn [world trace].
    destruct (StatusUpdate (client_ r) (prepared r cc0) w3) as [[e |] w4];
      cbn [fst snd]; now rewrite <- !app_assoc.
Qed.

(** X12. When the upstream Certificate is read but its dnsNames field is
    missing, the pass ends there with no error, no requeue and no write;
    when the field is not a list of strings, the pass ends with an error
    and no write. *)
Theorem Reconcile_bad_dnsNames (req : NamespacedName) (cc0 : CachedCertificate)
    (cert : Unstructured) (w w1 w2 : W) (tr : list call) :
  GetCachedCertificate (client_ r) req w = (inr cc0, w1) ->
  GetCertificate (client_ r) (upstreamKey (prepared r cc0)) w1 = (inr cert, w2) ->
  (u_dnsNames cert = Absent ->
   Reconcile r req (St w tr) = ((noResult, None), St w2 (tr ++ firstReads r req cc0)))
  /\ (u_dnsNames cert = WrongType ->
      exists e,
        Reconcile r req (St w tr)
        = ((noResult, Some e), St w2 (tr ++ firstReads r req cc0))).
Proof.
  intros HG HC.
  pose proof (prepared_boundRef cc0) as Href. unfold firstReads.
  split; intros Hd; [| eexists];
    start_pass r cc0 HG Href; rewrite HC, Hd;
    cbn [unstructured.NestedStringSlice negb]; unfold retR;
    now rewrite <- !app_assoc.
Qed.

(** From the two first reads to the fetch of the upstream secret. *)
Lemma Reconcile_secret_stage (req : NamespacedName) (cc0 : CachedCertificate)
    (cert : Unstructured) (names : list string) (w w1 w2 : W) (tr : list call) :
  GetCachedCertificate (client_ r) req w = (inr cc0, w1) ->
  GetCertificate (client_ r) (upstreamKey (prepared r cc0)) w1 = (inr cert, w2) ->
  u_dnsNames cert = Present names ->
  names ≡ₚ DNSNames (Spec cc0) ->
  Reconcile r req (St w tr) =
    bindR (getUpstreamSecret r cert) (afterSecretFetch r (prepared r cc0) cert)
          (St w2 (tr ++ firstReads r req cc0)).
Proof.
  intros HG HC Hd HP.
  pose proof (prepared_boundRef cc0) as Href.
  destruct (prepared_status r cc0) as (_ & _ & Hdns & _).
  assert (Hcmp : slicesEqualAfterSort names (DNSNames (Spec (prepared r cc0))) = true)
    by (rewrite Hdns; now apply slicesEqualAfterSort_spec).
  unfold firstReads. start_pass r cc0 HG Href. rewrite HC, Hd.
  cbn [unstructured.NestedStringSlice negb]. rewrite Hcmp. cbn [negb].
  rewrite <- !app_assoc. reflexivity.
Qed.

(** X13. [getUpstreamSecret] reads the secret named by the secretName of the
    upstream Certificate, in the Certificate's namespace, and returns what
    that read returns. When the secretName is missing, not a string or
    empty, it issues no read and returns an error that is not a NotFound. *)
Theorem getUpstreamSecret_behaviour (upstreamCert : Unstructured) (s : st W) :
  match u_secretName upstreamCert with
  | Present secretName =>
      if String.eqb secretName "" then
        exists e, getUpstreamSecret r upstreamCert s = (inl e, s)
                  /\ IsNotFound e = false
      else
        let key := {| nn_Namespace := u_namespace upstreamCert;
                      nn_Name := secretName |} in
        getUpstreamSecret r upstreamCert s =
          (fst (GetSecret (client_ r) key (world s)),
           St (snd (GetSecret (client_ r) key (world s)))
              (trace s ++ [GetSecretCall key]))
  | _ =>
      exists e, getUpstreamSecret r upstreamCert s = (inl e, s)
                /\ IsNotFound e = false
  end.
Proof.
  unfold getUpstreamSecret.
  destruct (u_secretName upstreamCert) as [| | secretName];
    cbn [unstructured.NestedString negb]; unfold retR; eauto.
  destruct (String.eqb secretName ""); eauto.
  unfold invoke. now destruct (GetSecret _ _ _).
Qed.

(** X14. When the fetch of the upstream secret fails with anything but a
    NotFound (a bad secretName on the Certificate, or a failed read), the
    pass writes the status with state Error and upstreamReady false and
    ends with an error: that of the status update if it failed, else that of
    the fetch. *)
Theorem Reconcile_secret_fetch_failed (req : NamespacedName)
    (cc0 : CachedCertificate) (cert : Unstructured) (names : list string)
    (err : error) (w w1 w2 : W) (tr : list call) (s3 : st W) :
  GetCachedCertificate (client_ r) req w = (inr cc0, w1) ->
  GetCertificate (client_ r) (upstreamKey (prepared r cc0)) w1 = (inr cert, w2) ->
  u_dnsNames cert = Present names ->
  names ≡ₚ DNSNames (Spec cc0) ->
  getUpstreamSecret r cert (St w2 (tr ++ firstReads r req cc0)) = (inl err, s3) ->
  IsNotFound err = false ->
  let written :=
    setUpstreamReady (setState (prepared r cc0) CachedCertificateStateError) false in
  let update := StatusUpdate (client_ r) written (world s3) in
  Reconcile r req (St w tr) =
    ((noResult, Some (default err (fst update))),
     St (snd update) (trace s3 ++ [StatusUpdateCall SecretFetchFailed written]))
  /\ State (Status written) = CachedCertificateStateError
  /\ UpstreamReady (Status written) = false.
Proof.
  intros HG HC Hd HP HS Hnf written update.
  split; [| split; reflexivity].
  rewrite (Reconcile_secret_stage req cc0 cert names w w1 w2 tr HG HC Hd HP).
  unfold bindR at 1. rewrite HS. unfold afterSecretFetch. rewrite Hnf.
  unfold bindR, statusUpdate, invoke, retR. fold written. fold update.
  destruct update as [[e |] w4]; reflexivity.
Qed.

(** X15. When the upstream secret is not found, the pass waits: it asks for
    a requeue after two seconds. Before that it writes the status with
    state Pending and upstreamReady false, unless the Request was fetched
    already Pending and not ready, in which case it writes nothing; if that
    write fails the pass ends with its error instead. *)
Theorem Reconcile_waits_for_secret (req : NamespacedName)
    (cc0 : CachedCertificate) (cert : Unstructured) (names : list string)
    (err : error) (w w1 w2 : W) (tr : list call) (s3 : st W) :
  GetCachedCertificate (client_ r) req w = (inr cc0, w1) ->
  GetCertificate (client_ r) (upstreamKey (prepared r cc0)) w1 = (inr cert, w2) ->
  u_dnsNames cert = Present names ->
  names ≡ₚ DNSNames (Spec cc0) ->
  getUpstreamSecret r cert (St w2 (tr ++ firstReads r req cc0)) = (inl err, s3) ->
  IsNotFound err = true ->
  let wait := {| Requeue := true; RequeueAfter := time.Second * 2 |} in
  let written :=
    setUpstreamReady (setState (prepared r cc0) CachedCertificateStatePending) false in
  let update := StatusUpdate (client_ r) written (world s3) in
  Reconcile r req (St w tr) =
    if String.eqb (State (Status cc0)) CachedCertificateStatePending
       && negb (UpstreamReady (Status cc0))
    then ((wait, None), s3)
    else (match fst update with
          | Some e => (noResult, Some e)
          | None => (wait, None)
          end,
          St (snd update) (trace s3 ++ [StatusUpdateCall SecretNotFound written])).
Proof.
  intros HG HC Hd HP HS Hnf wait written update.
  destruct (prepared_status r cc0) as (Hst & Hrd & _ & _).
  rewrite (Reconcile_secret_stage req cc0 cert names w w1 w2 tr HG HC Hd HP).
  unfold bindR at 1. rewrite HS. unfold afterSecretFetch. rewrite Hnf, Hst, Hrd.
  destruct (String.eqb (State (Status cc0)) CachedCertificateStatePending);
    destruct (UpstreamReady (Status cc0)); cbn [negb orb andb];
    try reflexivity;
    unfold bindR, statusUpdate, invoke, retR; fold written; fold update;
    destruct update as [[e |] w4]; reflexivity.
Qed.

(** X16. When the data of the upstream secret lacks "tls.crt" or "tls.key",
    the end of the pass issues no call at all: nothing is read, no secret
    is written and the status is left alone; the pass returns the
    validation error and asks for a requeue after three seconds. *)
Theorem Reconcile_sync_invalid_secret (cachedCert : CachedCertificate)
    (upstreamCert : Unstructured) (upstreamSecret : Secret) (e : error)
    (s : st W) :
  validateSecret (Some upstreamSecret) = Some e ->
  Reconcile_sync r cachedCert upstreamCert upstreamSecret s =
    (({| Requeue := false; RequeueAfter := time.Second * 3 |}, Some e), s).
Proof.
  intros Hv. unfold Reconcile_sync. cbn [genSecretForSync].
  change (validateSecret (Some _)) with (validateSecret (Some upstreamSecret)).
  now rewrite Hv.
Qed.

(** X17. After the upsert of a valid secret the pass writes the status
    once, with state Error if the upsert failed and Synced if it did not,
    and returns what that status update returns: the error of a failed
    upsert is not returned, and no requeue is asked for. *)
Theorem Reconcile_sync_outcome (cachedCert : CachedCertificate)
    (upstreamCert : Unstructured) (upstreamSecret secret : Secret)
    (res : option error) (s s1 : st W) :
  genSecretForSync (Some cachedCert) (Some upstreamCert) (Some upstreamSecret)
    = (Some secret, None) ->
  validateSecret (Some secret) = None ->
  upsertTargetSecret r secret s = (res, s1) ->
  let failed := if res is Some _ then true else false in
  let written :=
    setState cachedCert
      (if failed then CachedCertificateStateError else CachedCertificateStateSynced) in
  let update := StatusUpdate (client_ r) written (world s1) in
  Reconcile_sync r cachedCert upstreamCert upstreamSecret s =
    ((noResult, fst update),
     St (snd update)
        (trace s1 ++ [StatusUpdateCall (if failed then UpsertFailed else FinalSynced)
                        written])).
Proof.
  intros Hgen Hvalid Hup failed written update. subst update written failed.
  unfold Reconcile_sync. rewrite Hgen, Hvalid. unfold bindR. rewrite Hup.
  unfold statusUpdate, invoke, retR.
  destruct res as [e |]; destruct (StatusUpdate _ _ _) as [[e' |] w2]; reflexivity.
Qed.




(** X23. The calls of one pass are bounded, whatever the client answers: a
    pass starts with the read of its Request and issues at most seven calls,
    among them at most two status updates, at most one write of a secret
    and at most one create of an upstream Certificate; a pass that creates
    the upstream Certificate writes no secret; and a pass never lists
    Requests nor patches a status. *)
Theorem Reconcile_call_budget (req : NamespacedName) (w : W) :
  let tr := trace (snd (Reconcile r req (St w []))) in
  (exists rest, tr = GetCachedCertificateCall req :: rest)
  /\ length tr <= 7
  /\ countCalls isStatusUpdate tr <= 2
  /\ countCalls isSecretWrite tr <= 1
  /\ countCalls isCertificateCreate tr <= 1
  /\ countCalls isCertificateCreate tr + countCalls isSecretWrite tr <= 1
  /\ countCalls isFanOutCall tr = 0.
Proof.
  cbv zeta. remember (Reconcile r req (St w [])) as res eqn:H.
  unfold_run H.
  destruct (GetCachedCertificate (client_ r) req w) as [[err | cc0] w1] eqn:HG;
    cbn [fst snd world trace negb] in H.
  - destruct (IsNotFound err); subst res; unfold countCalls; cbn;
      (split; [eauto | repeat split; lia]).
  - fold_prepared r cc0 H.
    generalize dependent (prepared r cc0). intros cc H.
    repeat run_step H.
    all: subst res; unfold countCalls; cbn.
    all: split; [eauto | repeat split; lia].
Qed.

End more_reconcile.

(* ===================================================================== *)
(** ** More on the fan-out, its event filter and the index *)
(* ===================================================================== *)

Section more_fan_out.

Context {W : Type} (u : UpstreamSecretReconciler W).

(** X20. A fan-out pass that has nothing to propagate stops early. If the
    secret cannot be read it ends after that read, without error when the
    secret is not found; if the secret does not name its Certificate it
    ends there too, without listing; and if the listing of the dependents
    fails it returns that error and asks for a requeue. In none of these
    cases is a status patched. *)
Theorem fan_out_early_exits (req : NamespacedName) (s : st W)
    (got : error + Secret) (w1 : W) :
  GetSecret (us_client u) req (world s) = (got, w1) ->
  match got with
  | inl err =>
      ReconcileUpstreamSecret u req s =
        ((noResult, if IsNotFound err then None else Some err),
         St w1 (trace s ++ [GetSecretCall req]))
  | inr secret =>
      let certName :=
        mapIndex (Annotations (secret_ObjectMeta secret)) CertificateNameAnnotationKey in
      let listed :=
        ListCachedCertificates (us_client u) (CertNameIndexKey u) certName w1 in
      if String.eqb certName "" then
        ReconcileUpstreamSecret u req s =
          ((noResult, None), St w1 (trace s ++ [GetSecretCall req]))
      else
        forall err, fst listed = inl err ->
          ReconcileUpstreamSecret u req s =
            (({| Requeue := true; RequeueAfter := 0 |}, Some err),
             St (snd listed)
                (trace s ++ [GetSecretCall req;
                             ListCachedCertificatesCall (CertNameIndexKey u) certName]))
  end.
Proof.
  intros HG. unfold ReconcileUpstreamSecret, bindR, invoke, retR. rewrite HG.
  destruct got as [err | secret].
  - now destruct (IsNotFound err).
  - cbv zeta. destruct (String.eqb _ _); [reflexivity |].
    intros err Hl. cbn [world trace].
    destruct (ListCachedCertificates _ _ _ _) as [l w2]. cbn [fst snd] in *.
    subst l. now rewrite <- app_assoc.
Qed.

End more_fan_out.

Section more_filters.

(** X21. The fan-out is triggered by an event on a secret exactly when the
    event is an update with both the old and the new object at hand, the
    resource version has changed, the new object lives in the cache
    namespace, names its Certificate in the certificate-name annotation,
    and does not carry the marker label with the value "true". Create,
    delete and generic events never trigger it. *)
Theorem upstreamSecretEventFilter_spec (cacheNamespace : string) (e : event) :
  upstreamSecretEventFilter cacheNamespace e = true <->
  exists old new,
    e = UpdateEvent (Some old) (Some new)
    /\ ResourceVersion new <> ResourceVersion old
    /\ Namespace new = cacheNamespace
    /\ mapIndex (Annotations new) CertificateNameAnnotationKey <> ""
    /\ mapIndex (Labels new) SyncedLabelKey <> "true".
Proof.
  unfold upstreamSecretEventFilter, namespaceAndLabelsPredicate. split.
  - destruct e as [o | [old |] [new |] | o | o]; cbn; try discriminate.
    rewrite !andb_true_iff, !negb_true_iff, String.eqb_eq, !String.eqb_neq.
    intros (Hrv & (Hns & Hann) & Hlab). exists old, new. auto.
  - intros (old & new & -> & Hrv & Hns & Hann & Hlab). cbn.
    rewrite !andb_true_iff, !negb_true_iff, String.eqb_eq, !String.eqb_neq. auto.
Qed.

Context {W : Type} (r : CachedCertificateReconciler W).

Lemma upstreamCertificateName_nonempty (a : string) (l : list string) :
  upstreamCertificateName (a :: l) <> "".
Proof.
  rewrite upstreamCertificateName_cons. intros H.
  pose proof (nameOfSorted_prefix (merge_sort string_le (a :: l))) as Hp.
  rewrite H in Hp. discriminate.
Qed.

(** X22. The index of Requests by upstream name has at most one key per
    Request, the name of its upstream reference, and none when there is no
    reference or its name is empty. A Request with no recorded reference is
    indexed, as the pass prepares it, under the name derived from its
    dnsNames; if it has no dnsNames the derived name is empty and it is not
    indexed. After the reset made on a stale binding it is not indexed. *)
Theorem index_by_upstream_name (cachedCert : CachedCertificate) :
  (forall n : string,
      n ∈ indexByUpstreamRefName cachedCert <->
      n <> "" /\ exists ref, UpstreamRef (Status cachedCert) = Some ref
                           /\ ref_Name ref = n)
  /\ length (indexByUpstreamRefName cachedCert) <= 1
  /\ indexByUpstreamRefName (setUpstreamRef cachedCert None) = []
  /\ (UpstreamRef (Status cachedCert) = None ->
      indexByUpstreamRefName (prepared r cachedCert) =
        if DNSNames (Spec cachedCert) is [] then []
        else [upstreamCertificateName (DNSNames (Spec cachedCert))]).
Proof.
  split; [| split; [| split]].
  - intros n. unfold indexByUpstreamRefName.
    destruct (UpstreamRef (Status cachedCert)) as [ref |].
    + destruct (String.eqb_spec (ref_Name ref) "") as [E | E]; cbn [negb].
      * split; [intros H; inversion H |].
        intros (Hn & ref' & Hr & Hn'). injection Hr as <-. congruence.
      * rewrite list_elem_of_singleton. split.
        -- intros ->. split; [exact E | eauto].
        -- intros (_ & ref' & Hr & Hn'). injection Hr as <-. now symmetry.
    + split; [intros H; inversion H |].
      intros (_ & ref' & Hr & _). discriminate.
  - unfold indexByUpstreamRefName.
    destruct (UpstreamRef (Status cachedCert)) as [ref |]; [| simpl; lia].
    destruct (negb _); simpl; lia.
  - reflexivity.
  - intros Hnone. unfold indexByUpstreamRefName.
    pose proof (prepared_boundRef r cachedCert) as Href. rewrite Href.
    unfold boundRef. rewrite Hnone. cbn [default derivedRef ref_Name].
    destruct (DNSNames (Spec cachedCert)) as [| a l]; [reflexivity |].
    destruct (String.eqb_spec (upstreamCertificateName (a :: l)) "") as [E | E];
      [| reflexivity].
    now apply upstreamCertificateName_nonempty in E.
Qed.

End more_filters.

(* ===================================================================== *)
(** ** More passes on concrete clusters *)
(* ===================================================================== *)

Section more_concrete.

Let r := requestReconciler testing.
Let u := fanOutReconciler testing.

Lemma upsertTargetSecret_read_failure_witness :
  GetSecret fakeClient (targetKey conflictSecret) syncedCluster
    = (inl notFound, syncedCluster)
  /\ fst (upsertTargetSecret r conflictSecret (St syncedCluster [])) = None
  /\ trace (snd (upsertTargetSecret r conflictSecret (St syncedCluster [])))
     = [GetSecretCall (targetKey conflictSecret); CreateSecretCall conflictSecret].
Proof.
  assert (H1 : GetSecret (client_ r) (targetKey conflictSecret)
                 (world (St syncedCluster []))
               = (inl notFound, syncedCluster)) by (vm_compute; reflexivity).
  pose proof (upsertTargetSecret_read_failure r _ _ _ _ H1) as H.
  split; [exact H1 |]. rewrite H. split; vm_compute; reflexivity.
Defined.

Lemma Reconcile_request_unavailable_witness :
  GetCachedCertificate fakeClient (keyIn "absent") freshCluster
    = (inl notFound, freshCluster)
  /\ runRequest testing (keyIn "absent") freshCluster
     = ((noResult, None),
        St freshCluster [GetCachedCertificateCall (keyIn "absent")]).
Proof.
  assert (H1 : GetCachedCertificate (client_ r) (keyIn "absent") freshCluster
               = (inl notFound, freshCluster)) by (vm_compute; reflexivity).
  split; [exact H1 |].
  exact (Reconcile_request_unavailable r _ _ _ _ [] H1).
Defined.

Lemma Reconcile_creates_upstream_witness :
  GetCachedCertificate fakeClient (keyIn "new-cachedcertificate") freshCluster
    = (inr freshRequest, freshCluster)
  /\ GetCertificate fakeClient (upstreamKey freshWritten) freshCluster
     = (inl notFound, freshCluster)
  /\ fst (runRequest testing (keyIn "new-cachedcertificate") freshCluster)
     = ({| Requeue := true; RequeueAfter := 0 |}, None)
  /\ trace (snd (runRequest testing (keyIn "new-cachedcertificate") freshCluster))
     = [GetCachedCertificateCall (keyIn "new-cachedcertificate");
        GetCertificateCall (keyIn "cc-example.com");
        CreateCertificateCall (certificate "cc-example.com" ["example.com"]);
        StatusUpdateCall AfterUpstreamCreate freshWritten].
Proof.
  assert (HG : GetCachedCertificate (client_ r) (keyIn "new-cachedcertificate")
                 freshCluster = (inr freshRequest, freshCluster))
    by (vm_compute; reflexivity).
  assert (HC : GetCertificate (client_ r) (upstreamKey (prepared r freshRequest))
                 freshCluster = (inl notFound, freshCluster))
    by (vm_compute; reflexivity).
  pose proof (Reconcile_creates_upstream r _ _ _ _ _ _ [] HG HC) as H.
  cbv zeta in H.
  split; [exact HG | split; [exact HC |]].
  unfold runRequest. fold r. rewrite H. split; vm_compute; reflexivity.
Defined.

Lemma Reconcile_bad_dnsNames_witness :
  GetCachedCertificate fakeClient (keyIn "synced") bareCluster
    = (inr syncedRequest, bareCluster)
  /\ GetCertificate fakeClient (keyIn "cc-example.com") bareCluster
     = (inr bareCertificate, bareCluster)
  /\ u_dnsNames bareCertificate = Absent
  /\ runRequest testing (keyIn "synced") bareCluster
     = ((noResult, None),
        St bareCluster [GetCachedCertificateCall (keyIn "synced");
                        GetCertificateCall (keyIn "cc-example.com")]).
Proof.
  assert (HG : GetCachedCertificate (client_ r) (keyIn "synced") bareCluster
               = (inr syncedRequest, bareCluster)) by (vm_compute; reflexivity).
  assert (HC : GetCertificate (client_ r) (upstreamKey (prepared r syncedRequest))
                 bareCluster = (inr bareCertificate, bareCluster))
    by (vm_compute; reflexivity).
  pose proof (proj1 (Reconcile_bad_dnsNames r _ _ _ _ _ _ [] HG HC) eq_refl) as H.
  split; [exact HG | split; [exact HC | split; [reflexivity |]]].
  unfold runRequest. fold r. rewrite H. vm_compute. reflexivity.
Defined.

Lemma Reconcile_secret_fetch_failed_witness :
  GetCachedCertificate fakeClient (keyIn "synced") unnamedCluster
    = (inr syncedRequest, unnamedCluster)
  /\ GetCertificate fakeClient (keyIn "cc-example.com") unnamedCluster
     = (inr unnamedCertificate, unnamedCluster)
  /\ fst (runRequest testing (keyIn "synced") unnamedCluster)
     = (noResult,
        Some (errors.New "unable to find secretName in upstream Certificate"))
  /\ trace (snd (runRequest testing (keyIn "synced") unnamedCluster))
     = [GetCachedCertificateCall (keyIn "synced");
        GetCertificateCall (keyIn "cc-example.com");
        StatusUpdateCall SecretFetchFailed fetchFailedWritten].
Proof.
  assert (HG : GetCachedCertificate (client_ r) (keyIn "synced") unnamedCluster
               = (inr syncedRequest, unnamedCluster)) by (vm_compute; reflexivity).
  assert (HC : GetCertificate (client_ r) (upstreamKey (prepared r syncedRequest))
                 unnamedCluster = (inr unnamedCertificate, unnamedCluster))
    by (vm_compute; reflexivity).
  assert (HS : getUpstreamSecret r unnamedCertificate
                 (St unnamedCluster ([] ++ firstReads r (keyIn "synced") syncedRequest))
               = (inl (errors.New "unable to find secretName in upstream Certificate"),
                  St unnamedCluster ([] ++ firstReads r (keyIn "synced") syncedRequest)))
    by reflexivity.
  pose proof (Reconcile_secret_fetch_failed r _ _ _ ["example.com"] _ _ _ _ [] _
                HG HC eq_refl ltac:(reflexivity) HS eq_refl) as (H & _ & _).
  split; [exact HG | split; [exact HC |]].
  unfold runRequest. fold r. rewrite H. split; vm_compute; reflexivity.
Defined.

Lemma Reconcile_waits_for_secret_witness :
  GetCachedCertificate fakeClient (keyIn "synced") waitingCluster
    = (inr syncedRequest, waitingCluster)
  /\ GetSecret fakeClient (keyIn "cc-example.com") waitingCluster
     = (inl notFound, waitingCluster)
  /\ fst (runRequest testing (keyIn "synced") waitingCluster)
     = ({| Requeue := true; RequeueAfter := time.Second * 2 |}, None)
  /\ trace (snd (runRequest testing (keyIn "synced") waitingCluster))
     = [GetCachedCertificateCall (keyIn "synced");
        GetCertificateCall (keyIn "cc-example.com");
        GetSecretCall (keyIn "cc-example.com");
        StatusUpdateCall SecretNotFound waitingWritten].
Proof.
  assert (HG : GetCachedCertificate (client_ r) (keyIn "synced") waitingCluster
               = (inr syncedRequest, waitingCluster)) by (vm_compute; reflexivity).
  assert (HC : GetCertificate (client_ r) (upstreamKey (prepared r syncedRequest))
                 waitingCluster
               = (inr (certificate "cc-example.com" ["example.com"]), waitingCluster))
    by (vm_compute; reflexivity).
  assert (HS : getUpstreamSecret r (certificate "cc-example.com" ["example.com"])
                 (St waitingCluster ([] ++ firstReads r (keyIn "synced") syncedRequest))
               = (inl notFound,
                  St waitingCluster
                     (([] ++ firstReads r (keyIn "synced") syncedRequest)
                        ++ [GetSecretCall (keyIn "cc-example.com")])))
    by (vm_compute; reflexivity).
  pose proof (Reconcile_waits_for_secret r _ _ _ ["example.com"] _ _ _ _ [] _
                HG HC eq_refl ltac:(reflexivity) HS eq_refl) as H.
  cbv zeta in H.
  split; [exact HG | split; [vm_compute; reflexivity |]].
  unfold runRequest. fold r. rewrite H. split; vm_compute; reflexivity.
Defined.

Lemma Reconcile_sync_invalid_secret_witness :
  validateSecret (Some keylessSecret) = Some (errors.New "tls.key not found")
  /\ Reconcile_sync r syncedRequest (certificate "cc-example.com" ["example.com"])
       keylessSecret (St syncedCluster [])
     = (({| Requeue := false; RequeueAfter := time.Second * 3 |},
         Some (errors.New "tls.key not found")),
        St syncedCluster []).
Proof.
  assert (H1 : validateSecret (Some keylessSecret)
               = Some (errors.New "tls.key not found")) by (vm_compute; reflexivity).
  split; [exact H1 |].
  exact (Reconcile_sync_invalid_secret r _ _ _ _ _ H1).
Defined.

Lemma Reconcile_sync_outcome_witness :
  genSecretForSync (Some (prepared r syncedRequest))
      (Some (certificate "cc-example.com" ["example.com"]))
      (Some (upstreamSecretOf "cc-example.com"))
    = (Some syncedSecret, None)
  /\ validateSecret (Some syncedSecret) = None
  /\ fst (upsertTargetSecret r syncedSecret (St syncedCluster [])) = None
  /\ fst (Reconcile_sync r (prepared r syncedRequest)
            (certificate "cc-example.com" ["example.com"])
            (upstreamSecretOf "cc-example.com") (St syncedCluster []))
     = (noResult, None)
  /\ trace (snd (Reconcile_sync r (prepared r syncedRequest)
                   (certificate "cc-example.com" ["example.com"])
                   (upstreamSecretOf "cc-example.com") (St syncedCluster [])))
     = [GetSecretCall (keyIn "synced"); UpdateSecretCall syncedSecret;
        StatusUpdateCall FinalSynced syncedWritten].
Proof.
  assert (H1 : genSecretForSync (Some (prepared r syncedRequest))
                 (Some (certificate "cc-example.com" ["example.com"]))
                 (Some (upstreamSecretOf "cc-example.com"))
               = (Some syncedSecret, None)) by (vm_compute; reflexivity).
  assert (H2 : validateSecret (Some syncedSecret) = None) by (vm_compute; reflexivity).
  pose proof (Reconcile_sync_outcome r _ _ _ _ _ _ _ H1 H2
                (surjective_pairing (upsertTargetSecret r syncedSecret
                                       (St syncedCluster [])))) as H.
  cbv zeta in H.
  split; [exact H1 | split; [exact H2 | split; [vm_compute; reflexivity |]]].
  rewrite H. split; vm_compute; reflexivity.
Defined.



Lemma fan_out_early_exits_witness :
  GetSecret fakeClient (keyIn "gone") pendingCluster = (inl notFound, pendingCluster)
  /\ runFanOut testing (keyIn "gone") pendingCluster
     = ((noResult, None), St pendingCluster [GetSecretCall (keyIn "gone")]).
Proof.
  assert (H1 : GetSecret (us_client u) (keyIn "gone") (world (St pendingCluster []))
               = (inl notFound, pendingCluster)) by (vm_compute; reflexivity).
  split; [exact H1 |].
  exact (fan_out_early_exits u _ _ _ _ H1).
Defined.

End more_concrete.
